(** * Photo gallery client (src/App.jsx): derived views and request handlers

    A shallow embedding of the [App] component of [src/App.jsx]:
    - JavaScript strings are sequences of UTF-16 code units;
    - values decoded from a JSON response are a small universe of dynamic
      values, and the operations that can raise a [TypeError] in JavaScript
      return in an error type here;
    - the two memoised views ([allTags], [filtered]) are functions of the
      component state;
    - the two asynchronous handlers ([fetchPhotos], [handleAdd]) run in a
      state monad over the component state and the log of requests sent, with
      exceptions that keep the state written so far. *)

From Stdlib Require Import List NArith ZArith Bool String Ascii Lia.
Import ListNotations.

Set Implicit Arguments.
Set Warnings "-register-all".

(* ================================================================== *)
(** ** JavaScript strings *)
(* ================================================================== *)

Module JSString.

(** A string is its sequence of UTF-16 code units. *)
Definition code_unit := N.
Definition jsstring := list code_unit.

(** A source literal of ASCII characters. *)
Definition lit (s : string) : jsstring :=
  map N_of_ascii (list_ascii_of_string s).

Fixpoint str_eqb (a b : jsstring) : bool :=
  match a, b with
  | [], [] => true
  | c :: a', d :: b' => N.eqb c d && str_eqb a' b'
  | _, _ => false
  end.

(** [!s] is true of the empty string only. *)
Definition is_empty (s : jsstring) : bool :=
  match s with [] => true | _ :: _ => false end.

(** ECMAScript WhiteSpace and LineTerminator code points, the ones
    [String.prototype.trim] strips. All of them are in the BMP. *)
Definition is_white_space (c : code_unit) : bool :=
  (N.eqb c 9 || N.eqb c 10 || N.eqb c 11 || N.eqb c 12 || N.eqb c 13
   || N.eqb c 32 || N.eqb c 160 || N.eqb c 5760
   || (N.leb 8192 c && N.leb c 8202)
   || N.eqb c 8232 || N.eqb c 8233 || N.eqb c 8239 || N.eqb c 8287
   || N.eqb c 12288 || N.eqb c 65279)%bool.

Fixpoint trimStart (s : jsstring) : jsstring :=
  match s with
  | [] => []
  | c :: s' => if is_white_space c then trimStart s' else s
  end.

Definition trimEnd (s : jsstring) : jsstring := rev (trimStart (rev s)).

(** [s.trim()] *)
Definition trim (s : jsstring) : jsstring := trimEnd (trimStart s).

(** [s.split(sep)] for a separator of one code unit, as in [split(',')].
    The result always has at least one token. *)
Fixpoint split (sep : code_unit) (s : jsstring) : list jsstring :=
  match s with
  | [] => [[]]
  | c :: s' =>
      if N.eqb c sep then [] :: split sep s'
      else match split sep s' with
           | tok :: rest => (c :: tok) :: rest
           | [] => [[c]]
           end
  end.

Fixpoint startsWith (s q : jsstring) : bool :=
  match q, s with
  | [], _ => true
  | _ :: _, [] => false
  | d :: q', c :: s' => N.eqb c d && startsWith s' q'
  end.

(** [s.includes(q)]: [q] occurs in [s] as a contiguous run. *)
Fixpoint includes (s q : jsstring) : bool :=
  startsWith s q
  || match s with
     | [] => false
     | _ :: s' => includes s' q
     end.

(** Lower-casing of ASCII letters only; the instance of
    [toLowerCase] used to run examples. *)
Definition ascii_toLowerCase (s : jsstring) : jsstring :=
  map (fun c => if (N.leb 65 c && N.leb c 90)%bool then (c + 32)%N else c) s.

End JSString.
Import JSString.

(* ================================================================== *)
(** ** Dynamic values *)
(* ================================================================== *)

(** The values a JSON response decodes to, and [undefined], which a
    property read yields for a missing property. Numbers are restricted to
    integers. *)
Inductive value : Type :=
| VUndefined
| VNull
| VBool (b : bool)
| VNumber (n : Z)
| VString (s : jsstring)
| VArray (elems : list value)
| VObject (props : list (jsstring * value)).

(** Evaluation of an expression either yields a result or throws a
    [TypeError]. *)
Inductive result (A : Type) : Type :=
| Ok (a : A)
| TypeError.
Arguments TypeError {A}.

Definition rbind {A B} (m : result A) (k : A -> result B) : result B :=
  match m with
  | Ok a => k a
  | TypeError => TypeError
  end.

Declare Scope result_scope.
Delimit Scope result_scope with result.
Notation "x <- m ;; k" := (rbind m (fun x => k))
  (at level 61, m at next level, right associativity) : result_scope.

(** Truthiness, as tested by [||], [!] and [filter(Boolean)]. *)
Definition truthy (v : value) : bool :=
  match v with
  | VUndefined | VNull => false
  | VBool b => b
  | VNumber n => negb (Z.eqb n 0)
  | VString s => negb (is_empty s)
  | VArray _ | VObject _ => true
  end.

(** [a || b] where [b] is a literal. *)
Definition or_else (a b : value) : value := if truthy a then a else b.

(** SameValueZero, the comparison of [Array.prototype.includes] and of
    [Set]. Arrays and objects are compared by identity, and the ones met
    while walking a decoded JSON value are pairwise distinct. *)
Definition same_value_zero (a b : value) : bool :=
  match a, b with
  | VUndefined, VUndefined => true
  | VNull, VNull => true
  | VBool x, VBool y => Bool.eqb x y
  | VNumber x, VNumber y => Z.eqb x y
  | VString x, VString y => str_eqb x y
  | _, _ => false
  end.

Fixpoint lookup (k : jsstring) (props : list (jsstring * value)) : value :=
  match props with
  | [] => VUndefined
  | (k', v) :: rest => if str_eqb k k' then v else lookup k rest
  end.

(** [v.k] for the property names the component reads ([tags], [title],
    [description]): reading a property of [undefined] or [null] throws, an
    object yields its own property or [undefined], and strings, numbers,
    booleans and arrays have no property of these names. *)
Definition get (v : value) (k : jsstring) : result value :=
  match v with
  | VUndefined | VNull => TypeError
  | VObject props => Ok (lookup k props)
  | _ => Ok VUndefined
  end.

(** The receiver of [forEach] and [filter] must be an array: on any other
    decoded value the method is [undefined] and the call throws. *)
Definition as_array (v : value) : result (list value) :=
  match v with
  | VArray l => Ok l
  | _ => TypeError
  end.

(** [v.includes(x)] for a string [x]: array membership on an array,
    substring test on a string, a [TypeError] otherwise. *)
Definition method_includes (v : value) (x : jsstring) : result bool :=
  match v with
  | VArray l => Ok (existsb (same_value_zero (VString x)) l)
  | VString s => Ok (includes s x)
  | _ => TypeError
  end.

(** A [Set] keeps its elements in insertion order; [add] of an element
    already present leaves it unchanged. *)
Definition set_add (t : list value) (x : value) : list value :=
  if existsb (same_value_zero x) t then t else t ++ [x].

Fixpoint forEachM {S} (f : S -> value -> result S) (l : list value) (s : S)
  : result S :=
  match l with
  | [] => Ok s
  | x :: l' => (s' <- f s x ;; forEachM f l' s')%result
  end.

Fixpoint filterM (f : value -> result bool) (l : list value)
  : result (list value) :=
  match l with
  | [] => Ok []
  | x :: l' =>
      (b <- f x ;;
       r <- filterM f l' ;;
       Ok (if b then x :: r else r))%result
  end.

(* ================================================================== *)
(** ** The derived views *)
(* ================================================================== *)

(** [allTags], App.jsx lines 55-59:
    [const t = new Set()
     photos.forEach(p => (p.tags || []).forEach(tag => t.add(tag)))
     return ['All', ...Array.from(t)]] *)
Definition allTags (photos : value) : result (list value) :=
  (ps <- as_array photos ;;
   t <- forEachM
          (fun t p =>
             tags <- get p (lit "tags") ;;
             l <- as_array (or_else tags (VArray [])) ;;
             Ok (fold_left set_add l t))
          ps [] ;;
   Ok (VString (lit "All") :: t))%result.

Section Filtered.

(** [String.prototype.toLowerCase] of the host. *)
Variable toLowerCase : jsstring -> jsstring.

Definition method_toLowerCase (v : value) : result jsstring :=
  match v with
  | VString s => Ok (toLowerCase s)
  | _ => TypeError
  end.

(** The callback of [photos.filter], App.jsx lines 62-67. *)
Definition filtered_callback (selectedTag query : jsstring) (p : value)
  : result bool :=
  (tagMatch <-
     (if str_eqb selectedTag (lit "All") then Ok true
      else tags <- get p (lit "tags") ;;
           method_includes (or_else tags (VArray [])) selectedTag) ;;
   let q := toLowerCase (trim query) in
   qMatch <-
     (if is_empty q then Ok true
      else title <- get p (lit "title") ;;
           tl <- method_toLowerCase title ;;
           if includes tl q then Ok true
           else description <- get p (lit "description") ;;
                dl <- method_toLowerCase (or_else description (VString [])) ;;
                Ok (includes dl q)) ;;
   Ok (tagMatch && qMatch))%result.

(** [filtered], App.jsx lines 61-68. *)
Definition filtered (photos : value) (selectedTag query : jsstring)
  : result (list value) :=
  (ps <- as_array photos ;;
   filterM (filtered_callback selectedTag query) ps)%result.

End Filtered.

(* ================================================================== *)
(** ** Photos as the data model describes them *)
(* ================================================================== *)

(** The definitions of this part are the vocabulary of the
    specification: what a photo is, its tag sequence, title and
    description, and the two match predicates of the filtered view. The
    views above are compared with them. *)

Definition is_string (v : value) : bool :=
  match v with VString _ => true | _ => false end.

(** A [tags] property is missing, [null], or an array of strings. *)
Definition is_tag_list (v : value) : bool :=
  match v with
  | VUndefined | VNull => true
  | VArray l => forallb is_string l
  | _ => false
  end.

(** A photo is an object with a string [title], a [description] that is
    missing, [null] or a string, and a [tags] property as above. *)
Definition is_photo (v : value) : bool :=
  match v with
  | VObject props =>
      is_string (lookup (lit "title") props)
      && (match lookup (lit "description") props with
          | VUndefined | VNull | VString _ => true
          | _ => false
          end)
      && is_tag_list (lookup (lit "tags") props)
  | _ => false
  end.

Definition strings_of (l : list value) : list jsstring :=
  flat_map (fun x => match x with VString s => [s] | _ => [] end) l.

Definition field (k : string) (p : value) : value :=
  match p with
  | VObject props => lookup (lit k) props
  | _ => VUndefined
  end.

(** The photo's tag sequence; empty when [tags] is missing or [null]. *)
Definition photo_tags (p : value) : list jsstring :=
  match field "tags" p with
  | VArray l => strings_of l
  | _ => []
  end.

Definition photo_title (p : value) : jsstring :=
  match field "title" p with
  | VString s => s
  | _ => []
  end.

(** The photo's description; the empty text when it is missing. *)
Definition photo_description (p : value) : jsstring :=
  match field "description" p with
  | VString s => s
  | _ => []
  end.

(** The [tags] property of the photo is missing or [null]. *)
Definition tags_absent (p : value) : bool :=
  match field "tags" p with
  | VUndefined | VNull => true
  | _ => false
  end.

(** [q] occurs in [s] as a contiguous run of code units. *)
Definition substring (q s : jsstring) : Prop :=
  exists pre post, s = pre ++ q ++ post.

(** [r] lists the elements of [l] in the order in which they are first
    seen: the elements standing before [x] in [r] are exactly the ones
    met in [l] before the first occurrence of [x]. *)
Definition first_seen_order (l r : list jsstring) : Prop :=
  forall r1 x r2,
    r = r1 ++ x :: r2 ->
    exists l1 l2,
      l = l1 ++ x :: l2 /\ ~ In x l1 /\ (forall y, In y r1 <-> In y l1).

Section FilterSpec.

Variable toLowerCase : jsstring -> jsstring.

(** The tag-match predicate of the filtered view. *)
Definition tag_match (t : jsstring) (p : value) : Prop :=
  t = lit "All" \/ In t (photo_tags p).

(** The text-match predicate of the filtered view. *)
Definition text_match (query : jsstring) (p : value) : Prop :=
  let q := toLowerCase (trim query) in
  q = []
  \/ substring q (toLowerCase (photo_title p))
  \/ substring q (toLowerCase (photo_description p)).

(** The decision procedure for [tag_match] and [text_match] together. *)
Definition visible (t query : jsstring) (p : value) : bool :=
  let q := toLowerCase (trim query) in
  (str_eqb t (lit "All") || existsb (str_eqb t) (photo_tags p))
  && (is_empty q
      || includes (toLowerCase (photo_title p)) q
      || includes (toLowerCase (photo_description p)) q).

End FilterSpec.

(** [Set.prototype.add] on a set that holds strings only. *)
Definition uniq_add (acc : list jsstring) (x : jsstring) : list jsstring :=
  if existsb (str_eqb x) acc then acc else acc ++ [x].


(* ================================================================== *)
(** ** JSON documents *)
(* ================================================================== *)

(** A request or response body is kept as the JSON document it denotes,
    not as its text. The number literals are the integer ones. *)
Inductive json : Type :=
| JNull
| JBool (b : bool)
| JNumber (n : Z)
| JString (s : jsstring)
| JArray (elems : list json)
| JObject (members : list (jsstring * json)).

(** [JSON.stringify(v)]: [undefined] has no document; a property whose
    value is [undefined] is left out of its object; an [undefined] array
    element is written as [null]. *)
Fixpoint JSON_stringify (v : value) : option json :=
  match v with
  | VUndefined => None
  | VNull => Some JNull
  | VBool b => Some (JBool b)
  | VNumber n => Some (JNumber n)
  | VString s => Some (JString s)
  | VArray l =>
      Some (JArray (map (fun x => match JSON_stringify x with
                                  | Some j => j
                                  | None => JNull
                                  end) l))
  | VObject props =>
      Some (JObject
              ((fix members (props : list (jsstring * value)) :=
                  match props with
                  | [] => []
                  | (k, x) :: rest =>
                      match JSON_stringify x with
                      | Some j => (k, j) :: members rest
                      | None => members rest
                      end
                  end) props))
  end.

(** The double nearest to an integer (ties to even), as the number a JSON
    integer literal is read as. Below 2^53 in magnitude it is the integer
    itself; from 2^1024 on the literal overflows, and [2^1024] and its
    opposite stand for the two infinities. *)
Definition to_double (n : Z) : Z :=
  let a := Z.abs n in
  if Z.ltb a (2 ^ 53) then n
  else
    let e := (Z.log2 a - 52)%Z in
    let q := Z.shiftr a e in
    let rest := (a - Z.shiftl q e)%Z in
    let half := Z.shiftl 1 (e - 1) in
    let q' := if (Z.ltb half rest || (Z.eqb rest half && Z.odd q))%bool
              then (q + 1)%Z else q in
    let r := Z.shiftl q' e in
    (Z.sgn n * (if Z.leb (2 ^ 1024) r then 2 ^ 1024 else r))%Z.

(** Definition of a property while an object is built: a name already
    there keeps its place and takes the new value. *)
Fixpoint set_prop (k : jsstring) (v : value) (props : list (jsstring * value))
  : list (jsstring * value) :=
  match props with
  | [] => [(k, v)]
  | (k', v') :: rest =>
      if str_eqb k k' then (k, v) :: rest else (k', v') :: set_prop k v rest
  end.

(** The value [res.json()] resolves to. Of the members of an object
    with the same name the last one gives the value. (The place a
    property has among the others is not read by the component.) *)
Fixpoint JSON_parse (j : json) : value :=
  match j with
  | JNull => VNull
  | JBool b => VBool b
  | JNumber n => VNumber (to_double n)
  | JString s => VString s
  | JArray l => VArray (map JSON_parse l)
  | JObject ms =>
      VObject ((fix props (ms : list (jsstring * json))
                    (acc : list (jsstring * value)) :=
                  match ms with
                  | [] => acc
                  | (k, x) :: rest => props rest (set_prop k (JSON_parse x) acc)
                  end) ms [])
  end.

(* ================================================================== *)
(** ** URL search parameters *)
(* ================================================================== *)

Module URLSearchParams.

Definition t := list (jsstring * jsstring).

(** [new URLSearchParams()] *)
Definition empty : t := [].

Definition remove (k : jsstring) (ps : t) : t :=
  filter (fun kv => negb (str_eqb k (fst kv))) ps.

(** [params.set(k, v)]: the first pair named [k] takes the value [v] and
    the other pairs named [k] are removed; without such a pair, [(k, v)]
    is appended. *)
Fixpoint set (ps : t) (k v : jsstring) : t :=
  match ps with
  | [] => [(k, v)]
  | (k', v') :: rest =>
      if str_eqb k k' then (k, v) :: remove k rest
      else (k', v') :: set rest k v
  end.

Definition hex_digit (n : N) : code_unit :=
  if N.ltb n 10 then (48 + n)%N else (55 + n)%N.

Definition percent (byte : N) : jsstring :=
  [37%N; hex_digit (N.div byte 16); hex_digit (N.modulo byte 16)].

(** The UTF-8 bytes of a code unit read as a BMP code point. (A
    surrogate pair is not joined; every name and value the component
    sets is ASCII.) *)
Definition utf8 (c : code_unit) : list N :=
  if N.ltb c 128 then [c]
  else if N.ltb c 2048 then
    [(192 + N.div c 64)%N; (128 + N.modulo c 64)%N]
  else
    [(224 + N.div c 4096)%N; (128 + N.modulo (N.div c 64) 64)%N;
     (128 + N.modulo c 64)%N].

(** The application/x-www-form-urlencoded byte serializer. *)
Definition encode_unit (c : code_unit) : jsstring :=
  if ((N.leb 48 c && N.leb c 57) || (N.leb 65 c && N.leb c 90)
      || (N.leb 97 c && N.leb c 122)
      || N.eqb c 42 || N.eqb c 45 || N.eqb c 46 || N.eqb c 95)%bool
  then [c]
  else if N.eqb c 32 then [43%N]
  else flat_map percent (utf8 c).

Definition encode (s : jsstring) : jsstring := flat_map encode_unit s.

(** [params.toString()] *)
Fixpoint toString (ps : t) : jsstring :=
  match ps with
  | [] => []
  | [(k, v)] => encode k ++ lit "=" ++ encode v
  | (k, v) :: rest => encode k ++ lit "=" ++ encode v ++ lit "&" ++ toString rest
  end.

End URLSearchParams.

(* ================================================================== *)
(** ** Component state, requests and the network *)
(* ================================================================== *)

(** The state variables of [App], App.jsx lines 19-31. *)
Record AppState : Type := mkAppState {
  loading : bool;
  photos : value;
  error : jsstring;
  title : jsstring;
  description : jsstring;
  imageUrl : jsstring;
  tags : jsstring;
  featured : bool;
  selectedTag : jsstring;
  showFeaturedOnly : bool;
  query : jsstring
}.

(** The initial values given to [useState]. *)
Definition initialState : AppState :=
  {| loading := false; photos := VArray []; error := [];
     title := []; description := []; imageUrl := []; tags := [];
     featured := false;
     selectedTag := lit "All"; showFeaturedOnly := false; query := [] |}.

Definition setLoading (v : bool) (s : AppState) : AppState :=
  mkAppState v (photos s) (error s) (title s) (description s) (imageUrl s)
             (tags s) (featured s) (selectedTag s) (showFeaturedOnly s) (query s).

Definition setPhotos (v : value) (s : AppState) : AppState :=
  mkAppState (loading s) v (error s) (title s) (description s) (imageUrl s)
             (tags s) (featured s) (selectedTag s) (showFeaturedOnly s) (query s).

Definition setError (v : jsstring) (s : AppState) : AppState :=
  mkAppState (loading s) (photos s) v (title s) (description s) (imageUrl s)
             (tags s) (featured s) (selectedTag s) (showFeaturedOnly s) (query s).

Definition setTitle (v : jsstring) (s : AppState) : AppState :=
  mkAppState (loading s) (photos s) (error s) v (description s) (imageUrl s)
             (tags s) (featured s) (selectedTag s) (showFeaturedOnly s) (query s).

Definition setDescription (v : jsstring) (s : AppState) : AppState :=
  mkAppState (loading s) (photos s) (error s) (title s) v (imageUrl s)
             (tags s) (featured s) (selectedTag s) (showFeaturedOnly s) (query s).

Definition setImageUrl (v : jsstring) (s : AppState) : AppState :=
  mkAppState (loading s) (photos s) (error s) (title s) (description s) v
             (tags s) (featured s) (selectedTag s) (showFeaturedOnly s) (query s).

Definition setTags (v : jsstring) (s : AppState) : AppState :=
  mkAppState (loading s) (photos s) (error s) (title s) (description s)
             (imageUrl s) v (featured s) (selectedTag s) (showFeaturedOnly s)
             (query s).

Definition setFeatured (v : bool) (s : AppState) : AppState :=
  mkAppState (loading s) (photos s) (error s) (title s) (description s)
             (imageUrl s) (tags s) v (selectedTag s) (showFeaturedOnly s)
             (query s).

Inductive http_method : Type := GET | POST.

(** What is handed to [fetch]. *)
Record request : Type := mkRequest {
  method : http_method;
  url : jsstring;
  headers : list (jsstring * jsstring);
  body : option json
}.

(** The body of a response, as [res.json()] finds it: a JSON document, or
    a text that is not JSON, in which case [res.json()] rejects with an
    error carrying the given message. *)
Inductive response_body : Type :=
| JsonBody (doc : json)
| NotJson (message : jsstring).

Record response : Type := mkResponse {
  status : Z;
  content : response_body
}.

(** [res.ok]: the status is in the range 200-299. *)
Definition ok (res : response) : bool :=
  (Z.leb 200 (status res) && Z.leb (status res) 299)%bool.

(** What a call of [fetch] comes to: the promise rejects (the request
    could not be made) with an error carrying a message, or it resolves to
    a response. *)
Inductive reply : Type :=
| Rejected (message : jsstring)
| Resolved (res : response).

(** The network answers the latest request of the log of requests sent so
    far (oldest first). *)
Definition network := list request -> reply.

Record world : Type := mkWorld {
  state : AppState;
  sent : list request
}.

(* ================================================================== *)
(** ** Handlers: state, requests and exceptions *)
(* ================================================================== *)

(** A handler returns, or throws an error of which only the message is
    ever read. State written before a throw stays written. An [await] is
    a plain sequencing: a handler is followed from its call to its end
    with no other event taken in between. *)
Inductive outcome (A : Type) : Type :=
| Returned (a : A)
| Thrown (message : jsstring).
Arguments Thrown {A}.

Definition action (A : Type) : Type := network -> world -> outcome A * world.

Definition ret {A} (a : A) : action A := fun _ w => (Returned a, w).

Definition bind {A B} (m : action A) (k : A -> action B) : action B :=
  fun net w =>
    match m net w with
    | (Returned a, w') => k a net w'
    | (Thrown e, w') => (Thrown e, w')
    end.

Definition throw {A} (message : jsstring) : action A :=
  fun _ w => (Thrown message, w).

(** [try { m } catch (e) { handler(e.message) }] *)
Definition try_catch {A} (m : action A) (handler : jsstring -> action A)
  : action A :=
  fun net w =>
    match m net w with
    | (Returned a, w') => (Returned a, w')
    | (Thrown e, w') => handler e net w'
    end.

(** [try { m } finally { f }] *)
Definition try_finally {A} (m : action A) (f : action unit) : action A :=
  fun net w =>
    match m net w with
    | (o, w') =>
        match f net w' with
        | (Returned _, w'') => (o, w'')
        | (Thrown e, w'') => (Thrown e, w'')
        end
    end.

(** A call of a state setter. *)
Definition update (f : AppState -> AppState) : action unit :=
  fun _ w => (Returned tt, mkWorld (f (state w)) (sent w)).

(** [await fetch(...)] *)
Definition fetch (r : request) : action response :=
  fun net w =>
    let log := sent w ++ [r] in
    match net log with
    | Rejected e => (Thrown e, mkWorld (state w) log)
    | Resolved res => (Returned res, mkWorld (state w) log)
    end.

(** [await res.json()] *)
Definition json_of (res : response) : action value :=
  match content res with
  | JsonBody doc => ret (JSON_parse doc)
  | NotJson e => throw e
  end.

Declare Scope action_scope.
Delimit Scope action_scope with action.
Notation "x <- m ;; k" := (bind m (fun x => k))
  (at level 61, m at next level, right associativity) : action_scope.
Notation "m ;; k" := (bind m (fun _ => k))
  (at level 61, right associativity) : action_scope.

Definition comma : code_unit := 44%N.

(** The tokens of the comma-separated tags input, App.jsx lines 79-82:
    [tags.split(',').map(t => t.trim()).filter(Boolean)] *)
Definition split_tags (input : jsstring) : list jsstring :=
  filter (fun t => truthy (VString t)) (map trim (split comma input)).

(** Specification of the tags input: tokens, and what trimming one is. *)

(** The tokens joined again with the separator between them. *)
Fixpoint join (sep : code_unit) (toks : list jsstring) : jsstring :=
  match toks with
  | [] => []
  | [t] => t
  | t :: rest => t ++ sep :: join sep rest
  end.

(** [toks] are the tokens of [input] split on commas: comma-free pieces
    which, with a comma between neighbours, make up the input. *)
Definition comma_tokens (input : jsstring) (toks : list jsstring) : Prop :=
  toks <> [] /\ join comma toks = input /\ Forall (fun t => ~ In comma t) toks.

Definition white (s : jsstring) : Prop :=
  Forall (fun c => is_white_space c = true) s.

Definition starts_clean (s : jsstring) : Prop :=
  match s with
  | [] => True
  | c :: _ => is_white_space c = false
  end.

(** [t'] is [t] trimmed: [t] without its leading and trailing white
    space. *)
Definition trimmed_from (t t' : jsstring) : Prop :=
  exists l r,
    t = l ++ t' ++ r /\ white l /\ white r
    /\ starts_clean t' /\ starts_clean (rev t').

Section Handlers.

(** [import.meta.env.VITE_BACKEND_URL], a string when it is set. *)
Variable VITE_BACKEND_URL : option jsstring.

(** App.jsx line 17 *)
Definition baseUrl : jsstring :=
  match VITE_BACKEND_URL with
  | Some s => if is_empty s then lit "http://localhost:8000" else s
  | None => lit "http://localhost:8000"
  end.

(** The search parameters of the list request, App.jsx lines 37-38. *)
Definition list_params (r : AppState) : URLSearchParams.t :=
  if showFeaturedOnly r
  then URLSearchParams.set URLSearchParams.empty (lit "featured") (lit "true")
  else URLSearchParams.empty.

(** The list request, App.jsx line 39. *)
Definition list_request (r : AppState) : request :=
  {| method := GET;
     url := baseUrl ++ lit "/api/photos?"
              ++ URLSearchParams.toString (list_params r);
     headers := [];
     body := None |}.

(** [fetchPhotos], App.jsx lines 33-48. [r] is the render whose state
    variables the closure reads. *)
Definition fetchPhotos (r : AppState) : action unit :=
  try_finally
    (try_catch
       (update (setLoading true) ;;
        update (setError []) ;;
        res <- fetch (list_request r) ;;
        if negb (ok res) then throw (lit "Failed to load photos")
        else data <- json_of res ;;
             update (setPhotos data))%action
       (fun e => update (setError e)))
    (update (setLoading false)).

(** The object built at App.jsx lines 75-84. *)
Definition payload (r : AppState) : value :=
  VObject
    [ (lit "title", VString (title r));
      (lit "description", or_else (VString (description r)) VUndefined);
      (lit "image_url", VString (imageUrl r));
      (lit "tags", VArray (map VString (split_tags (tags r))));
      (lit "featured", VBool (featured r)) ].

(** The create request, App.jsx lines 85-89. *)
Definition create_request (r : AppState) : request :=
  {| method := POST;
     url := baseUrl ++ lit "/api/photos";
     headers := [(lit "Content-Type", lit "application/json")];
     body := JSON_stringify (payload r) |}.

(** [handleAdd], App.jsx lines 70-101 ([e.preventDefault()] touches
    neither the state nor the network). *)
Definition handleAdd (r : AppState) : action unit :=
  (update (setError []) ;;
   try_catch
     (if (is_empty (title r) || is_empty (imageUrl r))%bool
      then throw (lit "Title and Image URL are required")
      else
        res <- fetch (create_request r) ;;
        if negb (ok res) then throw (lit "Failed to save photo")
        else
          update (setTitle []) ;;
          update (setDescription []) ;;
          update (setImageUrl []) ;;
          update (setTags []) ;;
          update (setFeatured false) ;;
          fetchPhotos r)
     (fun e => update (setError e)))%action.

End Handlers.

(** Specification of a failing list fetch: the request is rejected, the
    response is not ok, or reading its body throws. *)
Definition list_fetch_fails (rep : reply) : bool :=
  match rep with
  | Rejected _ => true
  | Resolved res =>
      negb (ok res)
      || match content res with
         | NotJson _ => true
         | JsonBody _ => false
         end
  end.

(** The message of the error a failing list fetch throws in the [try]
    block of [fetchPhotos]. *)
Definition failure_message (rep : reply) : jsstring :=
  match rep with
  | Rejected e => e
  | Resolved res =>
      if ok res then
        match content res with
        | NotJson e => e
        | JsonBody _ => []
        end
      else lit "Failed to load photos"
  end.

(** The state of the form after a create request that succeeded. *)
Definition form_cleared (s : AppState) : AppState :=
  setFeatured false
    (setTags [] (setImageUrl [] (setDescription [] (setTitle [] s)))).


(* ================================================================== *)
(** ** Sample data *)
(* ================================================================== *)

Definition sunset : value :=
  VObject [ (lit "id", VNumber 1);
            (lit "title", VString (lit "Sunset"));
            (lit "image_url", VString (lit "https://example.com/sunset.jpg"));
            (lit "tags", VArray [VString (lit "beach"); VString (lit "travel")]);
            (lit "featured", VBool true) ].

Definition cabin : value :=
  VObject [ (lit "id", VNumber 2);
            (lit "title", VString (lit "Cabin"));
            (lit "description", VString (lit "A hut in the Woods"));
            (lit "image_url", VString (lit "https://example.com/cabin.jpg"));
            (lit "tags", VArray [VString (lit "travel")]);
            (lit "featured", VBool false) ].

(** A photo whose [tags] is [null] and whose description is missing. *)
Definition dune : value :=
  VObject [ (lit "id", VNumber 3);
            (lit "title", VString (lit "Dune"));
            (lit "image_url", VString (lit "https://example.com/dune.jpg"));
            (lit "tags", VNull);
            (lit "featured", VBool false) ].

(** A filled-in form. *)
Definition draft : AppState :=
  setTitle (lit "Sunset")
    (setImageUrl (lit "https://example.com/sunset.jpg")
       (setTags (lit "beach, travel") initialState)).

(** A backend that accepts every create request and lists one photo. *)
Definition backend_up : network :=
  fun log =>
    match last log (mkRequest GET [] [] None) with
    | {| method := POST |} => Resolved (mkResponse 201 (JsonBody JNull))
    | {| method := GET |} => Resolved (mkResponse 200 (JsonBody (JArray [
        JObject [ (lit "title", JString (lit "Sunset"));
                  (lit "tags", JArray [JString (lit "beach")]) ] ])))
    end.

(** A backend that cannot be reached. *)
Definition backend_down : network :=
  fun _ => Rejected (lit "Failed to fetch").

(** A backend that answers every request with status 500. *)
Definition backend_broken : network :=
  fun _ => Resolved (mkResponse 500 (NotJson (lit "Unexpected token"))).

(* ================================================================== *)
(** ** Events and rendering *)
(* ================================================================== *)

Definition setSelectedTag (v : jsstring) (s : AppState) : AppState :=
  mkAppState (loading s) (photos s) (error s) (title s) (description s)
             (imageUrl s) (tags s) (featured s) v (showFeaturedOnly s)
             (query s).

Definition setShowFeaturedOnly (v : bool) (s : AppState) : AppState :=
  mkAppState (loading s) (photos s) (error s) (title s) (description s)
             (imageUrl s) (tags s) (featured s) (selectedTag s) v (query s).

Definition setQuery (v : jsstring) (s : AppState) : AppState :=
  mkAppState (loading s) (photos s) (error s) (title s) (description s)
             (imageUrl s) (tags s) (featured s) (selectedTag s)
             (showFeaturedOnly s) v.

(** What the user and React do to the component: the mount, the
    [onChange] and [onClick] callbacks of the inputs (App.jsx lines 117,
    122, 134, 179-218) and the submission of the form (line 174). A tag
    button is clicked with a tag that is a string. *)
Inductive event : Type :=
| Mount
| ChangeQuery (v : jsstring)
| ChangeShowFeaturedOnly (checked : bool)
| ClickTag (t : jsstring)
| ChangeTitle (v : jsstring)
| ChangeDescription (v : jsstring)
| ChangeImageUrl (v : jsstring)
| ChangeTags (v : jsstring)
| ChangeFeatured (checked : bool)
| Submit.

Section Events.

Variable VITE_BACKEND_URL : option jsstring.

(** The effect of App.jsx lines 50-53 runs [fetchPhotos] of the render
    that follows the mount and of every render in which [showFeaturedOnly]
    differs from the render before. The other callbacks set one state
    variable; the form calls [handleAdd] of the latest render. *)
Definition dispatch (e : event) : action unit :=
  fun net w =>
    match e with
    | Mount => fetchPhotos VITE_BACKEND_URL (state w) net w
    | ChangeShowFeaturedOnly checked =>
        let s' := setShowFeaturedOnly checked (state w) in
        if Bool.eqb checked (showFeaturedOnly (state w))
        then (Returned tt, mkWorld s' (sent w))
        else fetchPhotos VITE_BACKEND_URL s' net (mkWorld s' (sent w))
    | ChangeQuery v => update (setQuery v) net w
    | ClickTag t => update (setSelectedTag t) net w
    | ChangeTitle v => update (setTitle v) net w
    | ChangeDescription v => update (setDescription v) net w
    | ChangeImageUrl v => update (setImageUrl v) net w
    | ChangeTags v => update (setTags v) net w
    | ChangeFeatured checked => update (setFeatured checked) net w
    | Submit => handleAdd VITE_BACKEND_URL (state w) net w
    end.

(** The events taken one after the other, each followed to its end. *)
Fixpoint dispatch_all (es : list event) (net : network) (w : world) : world :=
  match es with
  | [] => w
  | e :: es' => dispatch_all es' net (snd (dispatch e net w))
  end.

End Events.

(** The alternatives of the gallery section, App.jsx lines 137-166. The
    grid is kept as the list of photos its cards are drawn from. *)
Inductive gallery : Type :=
| LoadingNotice
| ErrorBox (message : jsstring)
| EmptyNotice
| Grid (cards : list value).

(** [t === selectedTag] *)
Definition strict_equals_string (v : value) (s : jsstring) : bool :=
  match v with
  | VString x => str_eqb x s
  | _ => false
  end.

Section Render.

Variable toLowerCase : jsstring -> jsstring.

(** The tag buttons of App.jsx lines 132-134, each with its [active]
    flag. *)
Definition tag_buttons (s : AppState) : result (list (value * bool)) :=
  (labels <- allTags (photos s) ;;
   Ok (map (fun t => (t, strict_equals_string t (selectedTag s))) labels))%result.

(** Which alternative the gallery section shows. Both memoised views are
    computed by the render before anything is shown. *)
Definition gallery_of (s : AppState) : result gallery :=
  (_ <- allTags (photos s) ;;
   shown <- filtered toLowerCase (photos s) (selectedTag s) (query s) ;;
   Ok (if loading s then LoadingNotice
       else if negb (is_empty (error s)) then ErrorBox (error s)
       else if Nat.eqb (List.length shown) 0 then EmptyNotice
       else Grid shown))%result.

End Render.

(** The events that set one state variable and nothing else. *)
Definition is_local (e : event) : bool :=
  match e with
  | Mount | ChangeShowFeaturedOnly _ | Submit => false
  | _ => true
  end.
(* ================================================================== *)
(** ** Facts about strings *)
(* ================================================================== *)

Lemma str_eqb_eq (a b : jsstring) : str_eqb a b = true <-> a = b.
Proof.
  revert b; induction a as [|c a IH]; intros [|d b]; simpl;
    try (split; [discriminate | congruence]); try tauto.
  rewrite andb_true_iff, N.eqb_eq, IH. split.
  - intros [-> ->]; reflexivity.
  - intros H; injection H; auto.
Qed.

Lemma str_eqb_refl (a : jsstring) : str_eqb a a = true.
Proof. apply str_eqb_eq; reflexivity. Qed.

Lemma is_empty_nil (s : jsstring) : is_empty s = true <-> s = [].
Proof. destruct s; simpl; split; congruence. Qed.

Lemma startsWith_prefix (s q : jsstring) :
  startsWith s q = true <-> exists post, s = q ++ post.
Proof.
  revert s; induction q as [|d q IH]; intros s; simpl.
  - destruct s; split; eauto.
  - destruct s as [|c s].
    + split; [discriminate | intros [post H]; discriminate].
    + simpl. rewrite andb_true_iff, N.eqb_eq, IH. split.
      * intros [-> [post ->]]. exists post; reflexivity.
      * intros [post H]. injection H as -> ->. split; eauto.
Qed.

Lemma includes_substring (s q : jsstring) :
  includes s q = true <-> substring q s.
Proof.
  unfold substring. induction s as [|c s IH]; cbn [includes].
  - rewrite orb_false_r, startsWith_prefix. split.
    + intros [post H]. exists [], post; exact H.
    + intros [pre [post H]]. destruct pre; simpl in H.
      * eauto.
      * discriminate.
  - rewrite orb_true_iff, startsWith_prefix, IH. split.
    + intros [[post H] | [pre [post H]]].
      * exists [], post; exact H.
      * exists (c :: pre), post; simpl; rewrite H; reflexivity.
    + intros [[|c' pre] [post H]]; simpl in H.
      * left; eauto.
      * right. injection H as _ H. eauto.
Qed.

Lemma existsb_str_eqb (t : jsstring) (l : list jsstring) :
  existsb (str_eqb t) l = true <-> In t l.
Proof.
  rewrite existsb_exists. split.
  - intros [x [Hin Heq]]. apply str_eqb_eq in Heq; subst; assumption.
  - intros Hin. exists t; split; [assumption | apply str_eqb_refl].
Qed.

Lemma existsb_same_value_strings (t : jsstring) (l : list value) :
  forallb is_string l = true ->
  existsb (same_value_zero (VString t)) l = existsb (str_eqb t) (strings_of l).
Proof.
  induction l as [|x l IH]; simpl; [reflexivity|].
  rewrite andb_true_iff. intros [Hx Hl].
  destruct x; try discriminate. simpl. rewrite IH by assumption. reflexivity.
Qed.

(* ================================================================== *)
(** ** The filtered view *)
(* ================================================================== *)

Lemma filterM_pure (f : value -> result bool) (g : value -> bool)
      (l : list value) :
  (forall x, In x l -> f x = Ok (g x)) ->
  filterM f l = Ok (filter g l).
Proof.
  induction l as [|x l IH]; intros Hf; simpl; [reflexivity|].
  rewrite (Hf x) by (left; reflexivity). simpl.
  rewrite IH by (intros y Hy; apply Hf; right; exact Hy). simpl.
  reflexivity.
Qed.

Section FilteredFacts.

Variable toLowerCase : jsstring -> jsstring.

(** On a photo the callback of [filter] does not throw, and returns
    the decision [visible]. *)
Lemma filtered_callback_photo (t query : jsstring) (p : value) :
  is_photo p = true ->
  filtered_callback toLowerCase t query p = Ok (visible toLowerCase t query p).
Proof.
  destruct p as [| | | | | |props]; try discriminate.
  unfold is_photo, filtered_callback, visible, photo_tags, photo_title,
    photo_description, field, get.
  cbv zeta.
  generalize (toLowerCase (trim query)) as q.
  generalize (lookup (lit "tags") props) as tg.
  generalize (lookup (lit "title") props) as ti.
  generalize (lookup (lit "description") props) as de.
  generalize (str_eqb t (lit "All")) as isAll.
  intros isAll de ti tg q H.
  apply andb_true_iff in H as [H Htg]. apply andb_true_iff in H as [Hti Hde].
  destruct ti as [| | | |title| |]; try discriminate. clear Hti.
  assert (Htag :
    (if isAll then Ok true
     else rbind (Ok tg) (fun tags =>
            method_includes (or_else tags (VArray [])) t))
    = Ok (isAll || existsb (str_eqb t)
                     match tg with VArray l => strings_of l | _ => [] end)).
  { destruct isAll; [reflexivity|].
    destruct tg; try discriminate; simpl; try reflexivity.
    rewrite existsb_same_value_strings by exact Htg. reflexivity. }
  rewrite Htag. cbn [rbind method_toLowerCase].
  destruct (is_empty q); [reflexivity|]. cbn [rbind orb].
  destruct (includes (toLowerCase title) q);
    [cbn [rbind]; destruct isAll, (existsb (str_eqb t)
       match tg with VArray l => strings_of l | _ => [] end); reflexivity|].
  destruct de as [| | | |[|c s]| |]; try discriminate; reflexivity.
Qed.

Lemma visible_spec (t query : jsstring) (p : value) :
  visible toLowerCase t query p = true
  <-> tag_match t p /\ text_match toLowerCase query p.
Proof.
  unfold visible, tag_match, text_match.
  rewrite andb_true_iff, !orb_true_iff, str_eqb_eq, existsb_str_eqb,
    is_empty_nil, !includes_substring.
  tauto.
Qed.

End FilteredFacts.

(** C1. On every list of photos, for every selected tag [t] and query [q],
    the filtered view is the list of exactly those photos for which the tag
    match ([t] is "All", or [t] is one of the photo's tags) and the text
    match (the trimmed, lower-cased [q] is empty, or occurs in the
    lower-cased title, or occurs in the lower-cased description, a missing
    description counting as empty) both hold, kept in the order of the
    input list. *)
Theorem filtered_exactly_matching
        (toLowerCase : jsstring -> jsstring)
        (ps : list value) (t q : jsstring) :
  forallb is_photo ps = true ->
  filtered toLowerCase (VArray ps) t q
  = Ok (filter (visible toLowerCase t q) ps)
  /\ (forall p, visible toLowerCase t q p = true
                <-> tag_match t p /\ text_match toLowerCase q p).
Proof.
  intros Hps. split.
  - unfold filtered. cbn [as_array rbind].
    apply filterM_pure. intros p Hp.
    apply filtered_callback_photo.
    rewrite forallb_forall in Hps. apply Hps; exact Hp.
  - intros p. apply visible_spec.
Qed.

Lemma filtered_exactly_matching_witness :
  forallb is_photo [sunset; cabin; dune] = true
  /\ filtered ascii_toLowerCase (VArray [sunset; cabin; dune])
              (lit "travel") (lit " WOODS ")
     = Ok [cabin].
Proof.
  split; [reflexivity|].
  destruct (@filtered_exactly_matching ascii_toLowerCase
              [sunset; cabin; dune] (lit "travel") (lit " WOODS ") eq_refl)
    as [H _].
  rewrite H. reflexivity.
Defined.

(** The scenario of the specification: two photos, filtered by tag and
    by text. *)
Example filtered_scenario :
  filtered ascii_toLowerCase (VArray [sunset; cabin]) (lit "travel") []
  = Ok [sunset; cabin]
  /\ filtered ascii_toLowerCase (VArray [sunset; cabin]) (lit "beach") []
     = Ok [sunset]
  /\ filtered ascii_toLowerCase (VArray [sunset; cabin]) (lit "All") (lit "cab")
     = Ok [cabin].
Proof. repeat split. Qed.

(** Without the guard [|| []] a photo without tags would make the views
    throw; so does a photo list that is not an array. *)
Example filtered_not_array :
  filtered ascii_toLowerCase (VObject []) (lit "All") [] = TypeError
  /\ allTags VNull = TypeError
  /\ as_array VNull = TypeError.
Proof. repeat split. Qed.


(* ================================================================== *)
(** ** The tag vocabulary *)
(* ================================================================== *)

Lemma set_add_strings (acc : list jsstring) (x : jsstring) :
  set_add (map VString acc) (VString x) = map VString (uniq_add acc x).
Proof.
  unfold set_add, uniq_add.
  replace (existsb (same_value_zero (VString x)) (map VString acc))
    with (existsb (str_eqb x) acc).
  - destruct (existsb (str_eqb x) acc); [reflexivity|].
    rewrite map_app; reflexivity.
  - induction acc as [|y acc IH]; simpl; [reflexivity|].
    rewrite IH; reflexivity.
Qed.

Lemma fold_set_add_strings (l : list value) :
  forallb is_string l = true ->
  forall acc,
    fold_left set_add l (map VString acc)
    = map VString (fold_left uniq_add (strings_of l) acc).
Proof.
  induction l as [|x l IH]; simpl; intros Hl acc; [reflexivity|].
  apply andb_true_iff in Hl as [Hx Hl].
  destruct x; try discriminate. simpl.
  rewrite set_add_strings. apply IH; exact Hl.
Qed.

(** The two nested [forEach] loops add the tags of all photos, photo by
    photo, each photo's tags in their order. *)
Lemma forEach_photos_tags (ps : list value) :
  forallb is_photo ps = true ->
  forall acc,
    forEachM
      (fun t p =>
         rbind (get p (lit "tags")) (fun tags =>
         rbind (as_array (or_else tags (VArray []))) (fun l =>
         Ok (fold_left set_add l t))))
      ps (map VString acc)
    = Ok (map VString (fold_left uniq_add (flat_map photo_tags ps) acc)).
Proof.
  induction ps as [|p ps IH]; intros Hps acc; [reflexivity|].
  cbn [forallb] in Hps. apply andb_true_iff in Hps as [Hp Hps].
  cbn [forEachM flat_map]. rewrite fold_left_app.
  rewrite <- (IH Hps). clear IH.
  destruct p as [| | | | | |props]; try discriminate.
  unfold is_photo in Hp. unfold photo_tags, field, get.
  apply andb_true_iff in Hp as [_ Htg].
  revert Htg. generalize (lookup (lit "tags") props) as tg. intros tg Htg.
  destruct tg; try discriminate; cbn [rbind or_else truthy as_array];
    try reflexivity.
  rewrite fold_set_add_strings by exact Htg. reflexivity.
Qed.

Lemma existsb_str_eqb_false (x : jsstring) (l : list jsstring) :
  existsb (str_eqb x) l = false <-> ~ In x l.
Proof.
  rewrite <- existsb_str_eqb. destruct (existsb (str_eqb x) l); split;
    congruence.
Qed.

Lemma NoDup_snoc (acc : list jsstring) (a : jsstring) :
  NoDup acc -> ~ In a acc -> NoDup (acc ++ [a]).
Proof.
  intros Hnd Ha. induction Hnd as [|y acc Hy Hnd IH]; simpl.
  - constructor; [intros [] | constructor].
  - constructor.
    + rewrite in_app_iff. simpl. intros [H | [H | []]].
      * exact (Hy H).
      * apply Ha. left. symmetry. exact H.
    + apply IH. intros H. apply Ha. right. exact H.
Qed.

(** What the loop of [add] calls builds on top of a set [acc]: a
    duplicate-free extension by the new elements, each placed where it is
    first met. *)
Lemma fold_uniq_add_spec (l : list jsstring) :
  forall acc,
    NoDup acc ->
    exists r,
      fold_left uniq_add l acc = acc ++ r
      /\ NoDup (acc ++ r)
      /\ (forall x, In x r <-> In x l /\ ~ In x acc)
      /\ (forall r1 x r2,
             r = r1 ++ x :: r2 ->
             exists l1 l2,
               l = l1 ++ x :: l2 /\ ~ In x l1
               /\ (forall y, In y r1 -> In y l1)
               /\ (forall y, In y l1 -> In y acc \/ In y r1)).
Proof.
  induction l as [|a l IH]; intros acc Hnd.
  - exists []. rewrite app_nil_r. simpl. repeat split; try tauto.
    intros r1 x r2 H. destruct r1; discriminate.
  - cbn [fold_left]. unfold uniq_add at 2.
    destruct (existsb (str_eqb a) acc) eqn:E.
    + apply existsb_str_eqb in E.
      destruct (IH acc Hnd) as (r & Hr & Hndr & Hin & Hord).
      exists r. repeat split; try assumption.
      * apply Hin in H. right. tauto.
      * apply Hin in H. tauto.
      * intros [[<- | Hx] Hacc]; [contradiction|]. apply Hin. tauto.
      * intros r1 x r2 Hsplit.
        destruct (Hord r1 x r2 Hsplit) as (l1 & l2 & Hl & Hx & H1 & H2).
        exists (a :: l1), l2. repeat split.
        -- simpl. rewrite Hl. reflexivity.
        -- intros [<- | Hx']; [|contradiction].
           assert (In a r) as Har by (rewrite Hsplit, in_app_iff; simpl; tauto).
           apply Hin in Har. tauto.
        -- intros y Hy. right. apply H1; exact Hy.
        -- intros y [<- | Hy]; [left; exact E | apply H2; exact Hy].
    + apply existsb_str_eqb_false in E.
      destruct (IH (acc ++ [a]) (@NoDup_snoc acc a Hnd E)) as (r & Hr & Hndr & Hin & Hord).
      assert (Hina : forall x, In x (acc ++ [a]) <-> In x acc \/ x = a).
      { intros x. rewrite in_app_iff. simpl. intuition congruence. }
      exists (a :: r). repeat split.
      * rewrite Hr, <- app_assoc. reflexivity.
      * rewrite <- app_assoc in Hndr. exact Hndr.
      * destruct H as [<- | H]; [left; reflexivity|].
        apply Hin in H. right. tauto.
      * destruct H as [<- | H]; [exact E|].
        apply Hin in H. rewrite Hina in H. tauto.
      * intros [Hx Hacc].
        destruct (list_eq_dec N.eq_dec a x) as [-> | Hne]; [left; reflexivity|].
        right. apply Hin. rewrite Hina. destruct Hx as [-> | Hx]; [tauto|].
        split; [exact Hx|]. intros [H | H]; [tauto | congruence].
      * intros r1 x r2 Hsplit. destruct r1 as [|b r1].
        -- injection Hsplit as <- <-. exists [], l. simpl. tauto.
        -- injection Hsplit as <- Hsplit.
           destruct (Hord r1 x r2 Hsplit) as (l1 & l2 & Hl & Hx & H1 & H2).
           exists (a :: l1), l2. repeat split.
           ++ simpl. rewrite Hl. reflexivity.
           ++ intros [<- | Hx']; [|contradiction].
              assert (In a r) as Har
                  by (rewrite Hsplit, in_app_iff; simpl; tauto).
              apply Hin in Har. rewrite Hina in Har. tauto.
           ++ intros y [<- | Hy]; [left; reflexivity | right; apply H1; exact Hy].
           ++ intros y [<- | Hy]; [right; left; reflexivity|].
              destruct (H2 y Hy) as [H | H].
              ** apply Hina in H. destruct H as [H | ->];
                   [left; exact H | right; left; reflexivity].
              ** right; right; exact H.
Qed.

(** On a list of photos [allTags] does not throw; it returns "All"
    followed by what the [add] loop collects from the photos' tags. *)
Lemma allTags_photos (ps : list value) :
  forallb is_photo ps = true ->
  allTags (VArray ps)
  = Ok (VString (lit "All")
        :: map VString (fold_left uniq_add (flat_map photo_tags ps) [])).
Proof.
  intros Hps. unfold allTags. cbn [as_array rbind].
  pose proof (forEach_photos_tags ps Hps []) as Hloop.
  change (map VString (@nil jsstring)) with (@nil value) in Hloop.
  rewrite Hloop. reflexivity.
Qed.

(** C2. On every list of photos the tag vocabulary is "All" followed by
    the distinct tags of the list, each exactly once, in the order in which
    they are first seen when the photos are scanned in list order and each
    photo's tags in their given order; two tags are the same when their
    texts are equal. *)
Theorem allTags_first_seen (ps : list value) :
  forallb is_photo ps = true ->
  exists voc : list jsstring,
    allTags (VArray ps) = Ok (VString (lit "All") :: map VString voc)
    /\ NoDup voc
    /\ (forall t, In t voc <-> In t (flat_map photo_tags ps))
    /\ first_seen_order (flat_map photo_tags ps) voc.
Proof.
  intros Hps.
  destruct (@fold_uniq_add_spec (flat_map photo_tags ps) [] (NoDup_nil _))
    as (voc & Hfold & Hnd & Hin & Hord).
  simpl in Hfold, Hnd. exists voc. repeat split.
  - rewrite (allTags_photos ps Hps), Hfold. reflexivity.
  - exact Hnd.
  - intros H. apply Hin in H. tauto.
  - intros H. apply Hin. tauto.
  - intros r1 x r2 Hsplit.
    destruct (Hord r1 x r2 Hsplit) as (l1 & l2 & Hl & Hx & H1 & H2).
    exists l1, l2. repeat split; try assumption.
    + apply H1.
    + intros Hy. destruct (H2 y Hy) as [[] | H]. exact H.
Qed.

Lemma allTags_first_seen_witness :
  forallb is_photo [sunset; cabin; dune] = true
  /\ exists voc,
      allTags (VArray [sunset; cabin; dune])
      = Ok (VString (lit "All") :: map VString voc)
      /\ NoDup voc.
Proof.
  split; [reflexivity|].
  destruct (@allTags_first_seen [sunset; cabin; dune] eq_refl)
    as (voc & H & Hnd & _).
  exists voc. split; assumption.
Defined.

(** A tag spelled "All" is a tag like any other: it is listed after the
    leading "All". *)
Example allTags_tag_named_All :
  allTags (VArray [VObject [(lit "title", VString (lit "Everything"));
                            (lit "tags", VArray [VString (lit "All")])]])
  = Ok [VString (lit "All"); VString (lit "All")].
Proof. reflexivity. Qed.

Example allTags_scenario :
  allTags (VArray [sunset; cabin; dune])
  = Ok [VString (lit "All"); VString (lit "beach"); VString (lit "travel")].
Proof. reflexivity. Qed.


(* ================================================================== *)
(** ** Photos without tags *)
(* ================================================================== *)

Lemma tags_absent_no_tags (p : value) :
  tags_absent p = true -> photo_tags p = [].
Proof.
  unfold tags_absent, photo_tags. destruct (field "tags" p);
    try discriminate; reflexivity.
Qed.

Lemma forallb_is_photo_remove (ps1 : list value) (p : value) (ps2 : list value) :
  forallb is_photo (ps1 ++ p :: ps2) = true ->
  is_photo p = true /\ forallb is_photo (ps1 ++ ps2) = true.
Proof.
  rewrite !forallb_app. cbn [forallb]. rewrite !andb_true_iff. tauto.
Qed.

(** C10. Both derived views are total on lists of photos, also when a
    photo's [tags] is missing or [null]: neither view throws, such a
    photo adds nothing to the tag vocabulary, and it is in the filtered
    view exactly when the selected tag is "All" and the text match
    holds, as a photo with an empty tag sequence would be. *)
Theorem untagged_photo_total
        (toLowerCase : jsstring -> jsstring)
        (ps1 : list value) (p : value) (ps2 : list value) (t q : jsstring) :
  forallb is_photo (ps1 ++ p :: ps2) = true ->
  tags_absent p = true ->
  (exists voc,
      allTags (VArray (ps1 ++ p :: ps2)) = Ok voc
      /\ allTags (VArray (ps1 ++ ps2)) = Ok voc)
  /\ (exists vis,
         filtered toLowerCase (VArray (ps1 ++ p :: ps2)) t q = Ok vis
         /\ (In p vis <-> t = lit "All" /\ text_match toLowerCase q p)).
Proof.
  intros Hps Hp.
  destruct (forallb_is_photo_remove ps1 p ps2 Hps) as [Hphoto Hrest].
  pose proof (tags_absent_no_tags p Hp) as Hnone.
  split.
  - eexists. split.
    + apply allTags_photos; exact Hps.
    + rewrite (allTags_photos _ Hrest).
      rewrite !flat_map_app. cbn [flat_map]. rewrite Hnone. reflexivity.
  - exists (filter (visible toLowerCase t q) (ps1 ++ p :: ps2)). split.
    + unfold filtered. cbn [as_array rbind].
      apply filterM_pure. intros x Hx.
      apply filtered_callback_photo.
      rewrite forallb_forall in Hps. apply Hps; exact Hx.
    + rewrite filter_In, visible_spec. unfold tag_match. rewrite Hnone.
      rewrite in_app_iff. simpl. tauto.
Qed.

Lemma untagged_photo_total_witness :
  (forallb is_photo ([sunset] ++ dune :: [cabin]) = true
   /\ tags_absent dune = true)
  /\ exists vis,
      filtered ascii_toLowerCase (VArray ([sunset] ++ dune :: [cabin]))
               (lit "All") (lit "du")
      = Ok vis
      /\ (In dune vis
          <-> lit "All" = lit "All" /\ text_match ascii_toLowerCase (lit "du") dune).
Proof.
  split; [split; reflexivity|].
  exact (proj2 (@untagged_photo_total ascii_toLowerCase [sunset] dune [cabin]
                  (lit "All") (lit "du") eq_refl eq_refl)).
Defined.


(* ================================================================== *)
(** ** The tags input *)
(* ================================================================== *)

Lemma split_nonempty (sep : code_unit) (s : jsstring) : split sep s <> [].
Proof.
  destruct s as [|c s]; simpl; [discriminate|].
  destruct (N.eqb c sep); [discriminate|].
  destruct (split sep s); discriminate.
Qed.

Lemma join_cons (sep : code_unit) (t u : jsstring) (rest : list jsstring) :
  join sep (t :: u :: rest) = t ++ sep :: join sep (u :: rest).
Proof. reflexivity. Qed.

Lemma split_comma_tokens (s : jsstring) : comma_tokens s (split comma s).
Proof.
  unfold comma_tokens. split; [apply split_nonempty|].
  induction s as [|c s [IHj IHf]]; cbn [split].
  - split; [reflexivity|]. constructor; [intros [] | constructor].
  - pose proof (@split_nonempty comma s) as Hne.
    destruct (split comma s) as [|tok rest]; [contradiction|].
    destruct (N.eqb c comma) eqn:Ec.
    + apply N.eqb_eq in Ec. subst c. split.
      * rewrite join_cons, IHj. reflexivity.
      * constructor; [intros [] | exact IHf].
    + apply N.eqb_neq in Ec.
      inversion IHf as [|? ? Htok Hrest]; subst. split.
      * destruct rest; [reflexivity|].
        rewrite join_cons. rewrite join_cons in *. reflexivity.
      * constructor; [|exact Hrest].
        intros [H | H]; [congruence | exact (Htok H)].
Qed.

Lemma trimStart_spec (s : jsstring) :
  exists l, s = l ++ trimStart s /\ white l /\ starts_clean (trimStart s).
Proof.
  induction s as [|c s (l & Hs & Hl & Hc)]; simpl.
  - exists []. repeat split. constructor.
  - destruct (is_white_space c) eqn:Ec.
    + exists (c :: l). repeat split.
      * simpl. rewrite <- Hs. reflexivity.
      * constructor; assumption.
      * exact Hc.
    + exists []. repeat split; [constructor | exact Ec].
Qed.

Lemma white_rev (l : jsstring) : white l -> white (rev l).
Proof.
  unfold white. rewrite !Forall_forall. intros H c Hc.
  apply H. apply in_rev. exact Hc.
Qed.

Lemma trimEnd_spec (s : jsstring) :
  exists r, s = trimEnd s ++ r /\ white r /\ starts_clean (rev (trimEnd s)).
Proof.
  unfold trimEnd. destruct (trimStart_spec (rev s)) as (l & Hs & Hl & Hc).
  exists (rev l). repeat split.
  - rewrite <- rev_app_distr, <- Hs, rev_involutive. reflexivity.
  - apply white_rev; exact Hl.
  - rewrite rev_involutive. exact Hc.
Qed.

Lemma starts_clean_prefix (a b : jsstring) :
  starts_clean (a ++ b) -> starts_clean a.
Proof. destruct a; simpl; auto. Qed.

Lemma trim_trimmed_from (s : jsstring) : trimmed_from s (trim s).
Proof.
  unfold trimmed_from, trim.
  destruct (trimStart_spec s) as (l & Hs & Hl & Hc).
  destruct (trimEnd_spec (trimStart s)) as (r & Ht & Hr & Hc').
  exists l, r. repeat split; try assumption.
  - rewrite <- Ht. exact Hs.
  - rewrite Ht in Hc. exact (starts_clean_prefix _ _ Hc).
Qed.

Lemma Forall2_map_trim (toks : list jsstring) :
  Forall2 trimmed_from toks (map trim toks).
Proof.
  induction toks; simpl; constructor; [apply trim_trimmed_from | assumption].
Qed.

(** What the parsing of the tags input computes: the tokens of the
    input split on commas, each trimmed, without the tokens that are
    empty after trimming, with repeated tokens kept. *)
Lemma split_tags_tokens (input : jsstring) :
  (exists toks trimmed,
      comma_tokens input toks
      /\ Forall2 trimmed_from toks trimmed
      /\ split_tags input = filter (fun t => negb (is_empty t)) trimmed)
  /\ split_tags (lit "travel, , family,  nature ,")
     = [lit "travel"; lit "family"; lit "nature"]
  /\ split_tags (lit "sea,sea") = [lit "sea"; lit "sea"].
Proof.
  split; [|split; reflexivity].
  exists (split comma input), (map trim (split comma input)).
  split; [apply split_comma_tokens|]. split; [apply Forall2_map_trim|].
  reflexivity.
Qed.

(* ================================================================== *)
(** ** The list fetch *)
(* ================================================================== *)

Ltac run_handler :=
  unfold try_finally, try_catch, bind, update, fetch, throw, json_of, ret;
  cbn [state sent].

(** [fetchPhotos] always returns, having sent one request. *)
Lemma fetchPhotos_run (env : option jsstring) (r : AppState)
      (net : network) (w : world) :
  let s0 := setError [] (setLoading true (state w)) in
  let log := sent w ++ [list_request env r] in
  fetchPhotos env r net w
  = (Returned tt,
     mkWorld
       (setLoading false
          match net log with
          | Rejected e => setError e s0
          | Resolved res =>
              if ok res then
                match content res with
                | JsonBody doc => setPhotos (JSON_parse doc) s0
                | NotJson e => setError e s0
                end
              else setError (lit "Failed to load photos") s0
          end)
       log).
Proof.
  intros s0 log. subst s0 log. unfold fetchPhotos. run_handler.
  destruct (net (sent w ++ [list_request env r])) as [e|res];
    cbn [state sent]; [reflexivity|].
  destruct (ok res); cbn [negb state sent]; [|reflexivity].
  unfold json_of, ret, throw. destruct (content res); reflexivity.
Qed.

Lemma list_params_cases (r : AppState) :
  list_params r
  = if showFeaturedOnly r then [(lit "featured", lit "true")] else [].
Proof. unfold list_params. destruct (showFeaturedOnly r); reflexivity. Qed.

(** C7. Every list fetch sends one GET request to the photos endpoint
    of the base URL, and its search parameters are [featured=true] when
    [showFeaturedOnly] is true and empty when it is false: a [featured]
    parameter is set exactly when [showFeaturedOnly] is true. *)
Theorem list_request_featured_param
        (env : option jsstring) (r : AppState) (net : network) (w : world) :
  sent (snd (fetchPhotos env r net w)) = sent w ++ [list_request env r]
  /\ method (list_request env r) = GET
  /\ url (list_request env r)
     = baseUrl env ++ lit "/api/photos?"
         ++ (if showFeaturedOnly r then lit "featured=true" else [])
  /\ list_params r
     = (if showFeaturedOnly r then [(lit "featured", lit "true")] else [])
  /\ ((exists v, In (lit "featured", v) (list_params r))
      <-> showFeaturedOnly r = true).
Proof.
  split; [rewrite fetchPhotos_run; reflexivity|].
  split; [reflexivity|].
  split; [unfold list_request; cbn [url]; rewrite list_params_cases;
          destruct (showFeaturedOnly r); reflexivity|].
  split; [apply list_params_cases|].
  rewrite list_params_cases. destruct (showFeaturedOnly r); split.
  - reflexivity.
  - intros _. exists (lit "true"). left; reflexivity.
  - intros [v []].
  - discriminate.
Qed.

(** C8, as stated, fails: when the request is rejected with the message
    "Failed to fetch", that message is the error shown, not the generic
    one. *)
Lemma rejected_fetch_shows_cause :
  ~ (forall (env : option jsstring) (r : AppState) (net : network) (w : world),
        list_fetch_fails (net (sent w ++ [list_request env r])) = true ->
        error (state (snd (fetchPhotos env r net w)))
        = lit "Failed to load photos").
Proof.
  intros H.
  specialize (H None initialState backend_down (mkWorld initialState [])
                eq_refl).
  vm_compute in H. discriminate H.
Qed.

(** C8, amended. After a list fetch the error shown is the generic
    "Failed to load photos" when the response is not ok, whatever its
    body, which is not read; it is the message of the error thrown when the
    request is rejected or when the body of an ok response is not JSON;
    and it is empty when the fetch succeeds. *)
Theorem fetch_error_message
        (env : option jsstring) (r : AppState) (net : network) (w : world) :
  error (state (snd (fetchPhotos env r net w)))
  = match net (sent w ++ [list_request env r]) with
    | Rejected e => e
    | Resolved res =>
        if ok res then
          match content res with
          | JsonBody _ => []
          | NotJson e => e
          end
        else lit "Failed to load photos"
    end.
Proof.
  rewrite fetchPhotos_run. cbn [snd state].
  destruct (net (sent w ++ [list_request env r])) as [e|res]; [reflexivity|].
  destruct (ok res); [|reflexivity].
  destruct (content res); reflexivity.
Qed.

(** C9. When a list fetch fails (rejected request, response not ok, or
    body that cannot be read), the photos are the ones held before: the
    state after the fetch is the state before it with the error set to the
    failure message and the loading flag false, and nothing else changed. *)
Theorem failed_fetch_keeps_photos
        (env : option jsstring) (r : AppState) (net : network) (w : world) :
  list_fetch_fails (net (sent w ++ [list_request env r])) = true ->
  let s' := state (snd (fetchPhotos env r net w)) in
  photos s' = photos (state w)
  /\ s' = setLoading false
            (setError (failure_message (net (sent w ++ [list_request env r])))
                      (state w)).
Proof.
  intros Hfail s'. subst s'. rewrite fetchPhotos_run. cbn [snd state].
  revert Hfail. unfold list_fetch_fails, failure_message.
  destruct (net (sent w ++ [list_request env r])) as [e|res].
  - intros _. split; reflexivity.
  - destruct (ok res); cbn [negb orb].
    + destruct (content res); [discriminate|]. intros _. split; reflexivity.
    + intros _. split; reflexivity.
Qed.

Lemma failed_fetch_keeps_photos_witness :
  list_fetch_fails
    (backend_broken
       (sent (mkWorld draft []) ++ [list_request None draft])) = true
  /\ photos (state (snd (fetchPhotos None draft backend_broken
                                     (mkWorld draft []))))
     = photos draft.
Proof.
  split; [reflexivity|].
  exact (proj1 (@failed_fetch_keeps_photos None draft backend_broken
                  (mkWorld draft []) eq_refl)).
Defined.


(* ================================================================== *)
(** ** The add form *)
(* ================================================================== *)

(** C4. Submitting the form with an empty title or an empty image URL
    sends no request and sets the error to a non-empty message. *)
Theorem submit_invalid_no_request
        (env : option jsstring) (r : AppState) (net : network) (w : world) :
  is_empty (title r) = true \/ is_empty (imageUrl r) = true ->
  let w' := snd (handleAdd env r net w) in
  sent w' = sent w
  /\ error (state w') = lit "Title and Image URL are required"
  /\ error (state w') <> [].
Proof.
  intros Hempty w'. subst w'. unfold handleAdd. run_handler.
  assert ((is_empty (title r) || is_empty (imageUrl r))%bool = true) as ->
      by (apply orb_true_iff; exact Hempty).
  cbn [snd state sent setError error]. repeat split. discriminate.
Qed.

Lemma submit_invalid_no_request_witness :
  (is_empty (title initialState) = true
   \/ is_empty (imageUrl initialState) = true)
  /\ sent (snd (handleAdd None initialState backend_up
                         (mkWorld initialState [])))
     = [].
Proof.
  split; [left; reflexivity|].
  exact (proj1 (@submit_invalid_no_request None initialState backend_up
                  (mkWorld initialState []) (or_introl eq_refl))).
Defined.


(** A submission that passes validation sends the create request first. *)
Lemma handleAdd_valid_run
      (env : option jsstring) (r : AppState) (net : network) (w : world) :
  is_empty (title r) = false ->
  is_empty (imageUrl r) = false ->
  let log := sent w ++ [create_request env r] in
  let s0 := setError [] (state w) in
  handleAdd env r net w
  = match net log with
    | Rejected e => (Returned tt, mkWorld (setError e s0) log)
    | Resolved res =>
        if ok res then fetchPhotos env r net (mkWorld (form_cleared s0) log)
        else (Returned tt, mkWorld (setError (lit "Failed to save photo") s0) log)
    end.
Proof.
  intros Ht Hi log s0. subst log s0. unfold handleAdd.
  unfold try_catch at 1. unfold bind at 1. unfold update at 1.
  rewrite Ht, Hi. cbn [orb state sent].
  unfold bind at 1. unfold fetch at 1. cbn [state sent].
  destruct (net (sent w ++ [create_request env r])) as [e|res];
    [reflexivity|].
  destruct (ok res); cbn [negb]; [|reflexivity].
  unfold bind, update. cbn [state sent].
  repeat rewrite fetchPhotos_run. reflexivity.
Qed.

(** The list request depends on the render through [showFeaturedOnly]
    only. *)
Lemma list_request_same_flag (env : option jsstring) (r r' : AppState) :
  showFeaturedOnly r = showFeaturedOnly r' ->
  list_request env r = list_request env r'.
Proof.
  intros Hsame. unfold list_request, list_params. rewrite Hsame. reflexivity.
Qed.

(** C5, as stated, fails: the list fetch after a create request that
    succeeded is not built from the [showFeaturedOnly] value the state
    holds when it is issued. The handler of a render in which the box was
    clear, run when the state has the box ticked (it was ticked while the
    create request was awaited), fetches the full list. *)
Lemma refetch_uses_render_value :
  ~ (forall (env : option jsstring) (r : AppState) (net : network) (w : world)
            (res : response),
        is_empty (title r) = false ->
        is_empty (imageUrl r) = false ->
        net (sent w ++ [create_request env r]) = Resolved res ->
        (200 <= status res <= 299)%Z ->
        let w' := snd (handleAdd env r net w) in
        sent w'
        = sent w ++ [create_request env r; list_request env (state w')]).
Proof.
  intros H.
  assert (200 <= status (mkResponse 201 (JsonBody JNull)) <= 299)%Z as Hst
      by (cbn [status]; lia).
  specialize (H None draft backend_up
                (mkWorld (setShowFeaturedOnly true draft) [])
                (mkResponse 201 (JsonBody JNull))
                eq_refl eq_refl eq_refl Hst).
  cbv zeta in H.
  apply (f_equal (fun log => map (fun q => List.length (url q)) log)) in H.
  vm_compute in H. discriminate H.
Qed.

(** C5, amended. When the create request succeeds (a response with a
    2xx status), the handler empties the form fields ([title],
    [description], [imageUrl], [tags] to the empty string, [featured] to
    false) and then runs one list fetch: after the create request exactly
    one request is sent, the list request for the [showFeaturedOnly] value
    of the render the form was submitted from. That is the value the state
    holds whenever the box was not changed since that render. *)
Theorem create_success_clears_and_refetches
        (env : option jsstring) (r : AppState) (net : network) (w : world)
        (res : response) :
  is_empty (title r) = false ->
  is_empty (imageUrl r) = false ->
  net (sent w ++ [create_request env r]) = Resolved res ->
  (200 <= status res <= 299)%Z ->
  let w' := snd (handleAdd env r net w) in
  handleAdd env r net w
  = fetchPhotos env r net
      (mkWorld (form_cleared (setError [] (state w)))
               (sent w ++ [create_request env r]))
  /\ sent w' = sent w ++ [create_request env r; list_request env r]
  /\ url (list_request env r)
     = baseUrl env ++ lit "/api/photos?"
         ++ (if showFeaturedOnly r then lit "featured=true" else [])
  /\ title (state w') = [] /\ description (state w') = []
  /\ imageUrl (state w') = [] /\ tags (state w') = []
  /\ featured (state w') = false
  /\ (showFeaturedOnly (state w) = showFeaturedOnly r ->
      list_request env r = list_request env (state w')).
Proof.
  intros Ht Hi Hnet Hst w'. subst w'.
  assert (ok res = true) as Hok.
  { unfold ok. apply andb_true_iff. split; apply Z.leb_le; lia. }
  rewrite (handleAdd_valid_run env r net w Ht Hi). cbv zeta.
  rewrite Hnet, Hok. split; [reflexivity|].
  rewrite fetchPhotos_run. cbn [snd state sent].
  split; [rewrite <- app_assoc; reflexivity|].
  split; [unfold list_request; cbn [url]; rewrite list_params_cases;
          destruct (showFeaturedOnly r); reflexivity|].
  destruct (net ((sent w ++ [create_request env r]) ++ [list_request env r]))
    as [e|res'];
    [|destruct (ok res'); [destruct (content res')|]];
    repeat split;
    intros Hsame; apply list_request_same_flag; symmetry; exact Hsame.
Qed.

Lemma create_success_clears_and_refetches_witness :
  (is_empty (title draft) = false
   /\ is_empty (imageUrl draft) = false
   /\ backend_up (sent (mkWorld draft []) ++ [create_request None draft])
      = Resolved (mkResponse 201 (JsonBody JNull))
   /\ (200 <= status (mkResponse 201 (JsonBody JNull)) <= 299)%Z)
  /\ sent (snd (handleAdd None draft backend_up (mkWorld draft [])))
     = [] ++ [create_request None draft; list_request None draft].
Proof.
  assert (200 <= status (mkResponse 201 (JsonBody JNull)) <= 299)%Z as Hst
      by (cbn [status]; lia).
  split; [repeat split; solve [reflexivity | apply Hst]|].
  exact (proj1 (proj2
           (@create_success_clears_and_refetches None draft backend_up
              (mkWorld draft []) (mkResponse 201 (JsonBody JNull))
              eq_refl eq_refl eq_refl Hst))).
Defined.


(** C6. The body of the create request has the members [title],
    [image_url], [tags] and [featured], and between [title] and [image_url]
    a member [description] holding the description as typed when it is not
    empty; when the description is empty the body has no [description]
    member. A submission that passes validation sends this request. *)
Theorem create_body_omits_empty_description
        (env : option jsstring) (r : AppState) (net : network) (w : world) :
  is_empty (title r) = false ->
  is_empty (imageUrl r) = false ->
  (exists rest,
      sent (snd (handleAdd env r net w))
      = sent w ++ create_request env r :: rest)
  /\ method (create_request env r) = POST
  /\ body (create_request env r)
     = Some (JObject
               ((lit "title", JString (title r))
                :: (if is_empty (description r) then []
                    else [(lit "description", JString (description r))])
                ++ [ (lit "image_url", JString (imageUrl r));
                     (lit "tags", JArray (map JString (split_tags (tags r))));
                     (lit "featured", JBool (featured r)) ])).
Proof.
  intros Ht Hi. split; [|split; [reflexivity|]].
  - rewrite (handleAdd_valid_run env r net w Ht Hi). cbv zeta.
    destruct (net (sent w ++ [create_request env r])) as [e|res].
    + exists []. reflexivity.
    + destruct (ok res).
      * rewrite fetchPhotos_run. cbn [snd sent].
        exists [list_request env r]. rewrite <- app_assoc. reflexivity.
      * exists []. reflexivity.
  - unfold create_request, payload. cbn [body JSON_stringify].
    rewrite map_map. unfold or_else. cbn [truthy].
    destruct (is_empty (description r)); cbn [negb JSON_stringify app];
      rewrite (map_ext _ JString) by reflexivity; reflexivity.
Qed.

Lemma create_body_omits_empty_description_witness :
  (is_empty (title draft) = false /\ is_empty (imageUrl draft) = false)
  /\ body (create_request None draft)
     = Some (JObject
               [ (lit "title", JString (lit "Sunset"));
                 (lit "image_url", JString (lit "https://example.com/sunset.jpg"));
                 (lit "tags", JArray [JString (lit "beach"); JString (lit "travel")]);
                 (lit "featured", JBool false) ]).
Proof.
  split; [split; reflexivity|].
  exact (proj2 (proj2
           (@create_body_omits_empty_description None draft backend_up
              (mkWorld draft []) eq_refl eq_refl))).
Defined.

Example create_body_with_description :
  body (create_request None (setDescription (lit "At dusk") draft))
  = Some (JObject
            [ (lit "title", JString (lit "Sunset"));
              (lit "description", JString (lit "At dusk"));
              (lit "image_url", JString (lit "https://example.com/sunset.jpg"));
              (lit "tags", JArray [JString (lit "beach"); JString (lit "travel")]);
              (lit "featured", JBool false) ]).
Proof. reflexivity. Qed.

(** The body of the create request, member by member. *)
Lemma create_request_body (env : option jsstring) (r : AppState) :
  body (create_request env r)
  = Some (JObject
            ((lit "title", JString (title r))
             :: (if is_empty (description r) then []
                 else [(lit "description", JString (description r))])
             ++ [ (lit "image_url", JString (imageUrl r));
                  (lit "tags", JArray (map JString (split_tags (tags r))));
                  (lit "featured", JBool (featured r)) ])).
Proof.
  unfold create_request, payload. cbn [body JSON_stringify].
  rewrite map_map. unfold or_else. cbn [truthy].
  destruct (is_empty (description r)); cbn [negb JSON_stringify app];
    rewrite (map_ext _ JString) by reflexivity; reflexivity.
Qed.

(** A submission that passes validation sends the create request before
    anything else. *)
Lemma handleAdd_sends_create
      (env : option jsstring) (r : AppState) (net : network) (w : world) :
  is_empty (title r) = false ->
  is_empty (imageUrl r) = false ->
  exists rest,
    sent (snd (handleAdd env r net w)) = sent w ++ create_request env r :: rest.
Proof.
  intros Ht Hi. rewrite (handleAdd_valid_run env r net w Ht Hi). cbv zeta.
  destruct (net (sent w ++ [create_request env r])) as [e|res].
  - exists []. reflexivity.
  - destruct (ok res).
    + rewrite fetchPhotos_run. cbn [snd sent].
      exists [list_request env r]. rewrite <- app_assoc. reflexivity.
    + exists []. reflexivity.
Qed.

(** C3. The create request that a submission sends carries, as its
    [tags] member, the tokens of the tags input split on commas, each
    trimmed, without the tokens that are empty after trimming, in their
    order and with repeated tokens kept; for the input
    "travel, , family,  nature ," the tags sent are "travel", "family",
    "nature". *)
Theorem create_sends_trimmed_tokens
        (env : option jsstring) (r : AppState) (net : network) (w : world) :
  is_empty (title r) = false ->
  is_empty (imageUrl r) = false ->
  exists toks trimmed sent_tags rest,
    comma_tokens (tags r) toks
    /\ Forall2 trimmed_from toks trimmed
    /\ sent_tags = filter (fun t => negb (is_empty t)) trimmed
    /\ sent (snd (handleAdd env r net w))
       = sent w ++ create_request env r :: rest
    /\ body (create_request env r)
       = Some (JObject
                 ((lit "title", JString (title r))
                  :: (if is_empty (description r) then []
                      else [(lit "description", JString (description r))])
                  ++ [ (lit "image_url", JString (imageUrl r));
                       (lit "tags", JArray (map JString sent_tags));
                       (lit "featured", JBool (featured r)) ]))
    /\ (tags r = lit "travel, , family,  nature ," ->
        sent_tags = [lit "travel"; lit "family"; lit "nature"])
    /\ (tags r = lit "sea,sea" -> sent_tags = [lit "sea"; lit "sea"]).
Proof.
  intros Ht Hi.
  destruct (handleAdd_sends_create env r net w Ht Hi) as [rest Hsent].
  exists (split comma (tags r)), (map trim (split comma (tags r))),
         (split_tags (tags r)), rest.
  split; [apply split_comma_tokens|].
  split; [apply Forall2_map_trim|].
  split; [reflexivity|].
  split; [exact Hsent|].
  split; [apply create_request_body|].
  split; intros ->; reflexivity.
Qed.

Lemma create_sends_trimmed_tokens_witness :
  (is_empty (title (setTags (lit "travel, , family,  nature ,") draft)) = false
   /\ is_empty (imageUrl (setTags (lit "travel, , family,  nature ,") draft))
      = false)
  /\ exists rest,
      sent (snd (handleAdd None
                   (setTags (lit "travel, , family,  nature ,") draft)
                   backend_up (mkWorld draft [])))
      = [] ++ create_request None
                (setTags (lit "travel, , family,  nature ,") draft) :: rest
      /\ body (create_request None
                 (setTags (lit "travel, , family,  nature ,") draft))
         = Some (JObject
                   [ (lit "title", JString (lit "Sunset"));
                     (lit "image_url",
                      JString (lit "https://example.com/sunset.jpg"));
                     (lit "tags",
                      JArray [JString (lit "travel"); JString (lit "family");
                              JString (lit "nature")]);
                     (lit "featured", JBool false) ]).
Proof.
  split; [split; reflexivity|].
  destruct (@create_sends_trimmed_tokens None
              (setTags (lit "travel, , family,  nature ,") draft)
              backend_up (mkWorld draft []) eq_refl eq_refl)
    as (toks & trimmed & sent_tags & rest & _ & _ & _ & Hsent & Hbody & Hex & _).
  exists rest. split; [exact Hsent|].
  rewrite Hbody, (Hex eq_refl). reflexivity.
Defined.



(* ================================================================== *)
(** ** More on the tags input *)
(* ================================================================== *)

Lemma trimStart_white (s : jsstring) : white s -> trimStart s = [].
Proof.
  induction 1 as [|c s Hc _ IH]; simpl; [reflexivity|].
  rewrite Hc. exact IH.
Qed.

Lemma trimStart_clean (s : jsstring) : starts_clean s -> trimStart s = s.
Proof. destruct s as [|c s]; simpl; [reflexivity|]. intros ->. reflexivity. Qed.

Lemma trimStart_app_white (l s : jsstring) :
  white l -> trimStart (l ++ s) = trimStart s.
Proof.
  induction 1 as [|c l Hc _ IH]; simpl; [reflexivity|].
  rewrite Hc. exact IH.
Qed.

Lemma white_app (a b : jsstring) : white a -> white b -> white (a ++ b).
Proof. unfold white. intros. apply Forall_app. split; assumption. Qed.

(** Trimming has one result only: the one [trim] computes. *)
Lemma trim_unique (t t' : jsstring) : trimmed_from t t' -> trim t = t'.
Proof.
  intros (l & r & -> & Hl & Hr & Hhead & Hlast). unfold trim.
  rewrite trimStart_app_white by exact Hl.
  destruct t' as [|c t'].
  - simpl app. rewrite trimStart_white by exact Hr. reflexivity.
  - rewrite trimStart_clean by exact Hhead.
    unfold trimEnd. rewrite rev_app_distr.
    rewrite trimStart_app_white by (apply white_rev; exact Hr).
    rewrite trimStart_clean by exact Hlast.
    apply rev_involutive.
Qed.

Lemma trimmed_from_sub (t t' : jsstring) (c : code_unit) :
  trimmed_from t t' -> In c t' -> In c t.
Proof.
  intros (l & r & -> & _) Hc. rewrite !in_app_iff. tauto.
Qed.

Lemma split_no_sep (sep : code_unit) (t : jsstring) :
  ~ In sep t -> split sep t = [t].
Proof.
  induction t as [|c t IH]; intros Hsep; cbn [split]; [reflexivity|].
  destruct (N.eqb c sep) eqn:Ec.
  - apply N.eqb_eq in Ec. exfalso. apply Hsep. left. exact Ec.
  - rewrite IH; [reflexivity|]. intros H. apply Hsep. right. exact H.
Qed.

Lemma split_app_sep (sep : code_unit) (t s : jsstring) :
  ~ In sep t -> split sep (t ++ sep :: s) = t :: split sep s.
Proof.
  induction t as [|c t IH]; intros Hsep; cbn [split app].
  - rewrite N.eqb_refl. reflexivity.
  - destruct (N.eqb c sep) eqn:Ec.
    + apply N.eqb_eq in Ec. exfalso. apply Hsep. left. exact Ec.
    + rewrite IH; [reflexivity|]. intros H. apply Hsep. right. exact H.
Qed.

(** Splitting undoes joining. *)
Lemma split_join (toks : list jsstring) :
  toks <> [] ->
  Forall (fun t => ~ In comma t) toks ->
  split comma (join comma toks) = toks.
Proof.
  induction toks as [|t toks IH]; intros Hne Hf; [contradiction|].
  inversion Hf as [|? ? Ht Hrest]; subst.
  destruct toks as [|u rest].
  - apply split_no_sep; exact Ht.
  - rewrite join_cons, split_app_sep by exact Ht.
    rewrite IH; [reflexivity|discriminate|exact Hrest].
Qed.

Lemma in_join (sep : code_unit) (toks : list jsstring) (t : jsstring)
      (c : code_unit) :
  In t toks -> In c t -> In c (join sep toks).
Proof.
  induction toks as [|u toks IH]; intros Ht Hc; [contradiction|].
  destruct toks as [|v rest].
  - destruct Ht as [-> | []]. exact Hc.
  - rewrite join_cons, in_app_iff. destruct Ht as [-> | Ht].
    + left; exact Hc.
    + right; right. apply IH; assumption.
Qed.

(** Every token the parsing of the tags input keeps is a non-empty text
    without a comma and without white space at either end. *)
Lemma split_tags_clean (input : jsstring) :
  Forall (fun t => t <> [] /\ ~ In comma t
                   /\ starts_clean t /\ starts_clean (rev t))
         (split_tags input).
Proof.
  unfold split_tags. apply Forall_forall. intros t Ht.
  apply filter_In in Ht as [Ht Hne]. apply in_map_iff in Ht as (u & <- & Hu).
  destruct (split_comma_tokens input) as (_ & _ & Hcomma).
  rewrite Forall_forall in Hcomma.
  pose proof (trim_trimmed_from u) as Htrim.
  split; [|split].
  - intros E. rewrite E in Hne. discriminate.
  - intros Hin. apply (Hcomma u Hu). eapply trimmed_from_sub; eassumption.
  - destruct Htrim as (l & r & _ & _ & _ & Hhead & Hlast). split; assumption.
Qed.

(** X1. Every tag in the body of the create request that a submission
    sends is a non-empty text without a comma and without white space at
    either end. *)
Theorem sent_tags_clean
        (env : option jsstring) (r : AppState) (net : network) (w : world) :
  is_empty (title r) = false ->
  is_empty (imageUrl r) = false ->
  exists sent_tags rest,
    sent (snd (handleAdd env r net w))
    = sent w ++ create_request env r :: rest
    /\ body (create_request env r)
       = Some (JObject
                 ((lit "title", JString (title r))
                  :: (if is_empty (description r) then []
                      else [(lit "description", JString (description r))])
                  ++ [ (lit "image_url", JString (imageUrl r));
                       (lit "tags", JArray (map JString sent_tags));
                       (lit "featured", JBool (featured r)) ]))
    /\ Forall (fun t => t <> [] /\ ~ In comma t
                        /\ starts_clean t /\ starts_clean (rev t))
              sent_tags.
Proof.
  intros Ht Hi.
  destruct (handleAdd_sends_create env r net w Ht Hi) as [rest Hsent].
  exists (split_tags (tags r)), rest.
  split; [exact Hsent|]. split; [apply create_request_body|].
  apply split_tags_clean.
Qed.

Lemma sent_tags_clean_witness :
  (is_empty (title (setTags (lit " beach ,, a b ,") draft)) = false
   /\ is_empty (imageUrl (setTags (lit " beach ,, a b ,") draft)) = false)
  /\ exists sent_tags rest,
      sent (snd (handleAdd None (setTags (lit " beach ,, a b ,") draft)
                           backend_up (mkWorld draft [])))
      = [] ++ create_request None (setTags (lit " beach ,, a b ,") draft) :: rest
      /\ body (create_request None (setTags (lit " beach ,, a b ,") draft))
         = Some (JObject
                   [ (lit "title", JString (lit "Sunset"));
                     (lit "image_url",
                      JString (lit "https://example.com/sunset.jpg"));
                     (lit "tags", JArray (map JString sent_tags));
                     (lit "featured", JBool false) ])
      /\ Forall (fun t => t <> [] /\ ~ In comma t
                          /\ starts_clean t /\ starts_clean (rev t))
                sent_tags.
Proof.
  split; [split; reflexivity|].
  exact (@sent_tags_clean None (setTags (lit " beach ,, a b ,") draft)
           backend_up (mkWorld draft []) eq_refl eq_refl).
Defined.


Lemma filter_trim_pieces (pieces tags : list jsstring) :
  Forall2 trimmed_from pieces tags ->
  Forall (fun t => t <> []) tags ->
  filter (fun t => truthy (VString t)) (map trim pieces) = tags.
Proof.
  induction 1 as [|u t us ts Hut _ IH]; intros Hne; [reflexivity|].
  inversion Hne as [|? ? Ht Hts]; subst.
  cbn [map filter]. rewrite (@trim_unique u t Hut), IH by exact Hts.
  destruct t as [|c t]; [contradiction|]. reflexivity.
Qed.

(** X2. Typing tags separated by commas, with any white space around
    them, gives back exactly those tags, in order: when each typed piece is
    comma-free and trims to a non-empty tag, [split_tags] of the pieces
    joined by commas is the list of the tags. *)
Theorem split_tags_join (pieces tags : list jsstring) :
  Forall (fun p => ~ In comma p) pieces ->
  Forall2 trimmed_from pieces tags ->
  Forall (fun t => t <> []) tags ->
  split_tags (join comma pieces) = tags.
Proof.
  intros Hcomma Htrim Hne. unfold split_tags.
  destruct pieces as [|p pieces].
  - inversion Htrim; subst. reflexivity.
  - rewrite split_join by (discriminate || exact Hcomma).
    apply filter_trim_pieces; assumption.
Qed.

Lemma split_tags_join_witness :
  (Forall (fun p => ~ In comma p) [lit " beach"; lit "travel  "]
   /\ Forall2 trimmed_from [lit " beach"; lit "travel  "]
              [lit "beach"; lit "travel"]
   /\ Forall (fun t => t <> []) [lit "beach"; lit "travel"])
  /\ split_tags (lit " beach,travel  ") = [lit "beach"; lit "travel"].
Proof.
  assert (Forall (fun p => ~ In comma p) [lit " beach"; lit "travel  "]) as H1.
  { repeat constructor; intros H; vm_compute in H;
      repeat (destruct H as [H | H]; [discriminate H|]); exact H. }
  assert (Forall2 trimmed_from [lit " beach"; lit "travel  "]
                  [lit "beach"; lit "travel"]) as H2.
  { repeat constructor.
    - exact (trim_trimmed_from (lit " beach")).
    - exact (trim_trimmed_from (lit "travel  ")). }
  assert (Forall (fun t : jsstring => t <> []) [lit "beach"; lit "travel"]) as H3.
  { repeat constructor; discriminate. }
  split; [repeat split; assumption|].
  exact (@split_tags_join [lit " beach"; lit "travel  "]
                          [lit "beach"; lit "travel"] H1 H2 H3).
Defined.

(** X3. A tags input made of white space and commas only (the empty
    input among them) sends no tag at all. *)
Theorem split_tags_blank (input : jsstring) :
  Forall (fun c => is_white_space c = true \/ c = comma) input ->
  split_tags input = [].
Proof.
  intros Hblank. unfold split_tags.
  destruct (split_comma_tokens input) as (_ & Hjoin & Hcomma).
  assert (Forall white (split comma input)) as Hwhite.
  { rewrite Forall_forall in *. intros t Ht. unfold white.
    rewrite Forall_forall. intros c Hc.
    assert (In c input) as Hin by (rewrite <- Hjoin; eapply in_join; eassumption).
    destruct (Hblank c Hin) as [H | ->]; [exact H|].
    exfalso. exact (Hcomma t Ht Hc). }
  clear Hjoin Hcomma.
  induction Hwhite as [|t toks Ht _ IH]; [reflexivity|].
  cbn [map filter]. replace (trim t) with (@nil code_unit); [exact IH|].
  unfold trim. rewrite trimStart_white by exact Ht. reflexivity.
Qed.

Lemma split_tags_blank_witness :
  Forall (fun c => is_white_space c = true \/ c = comma) (lit " , ,")
  /\ split_tags (lit " , ,") = [].
Proof.
  assert (Forall (fun c => is_white_space c = true \/ c = comma) (lit " , ,"))
    as H by (repeat constructor; (left; reflexivity) || (right; reflexivity)).
  split; [exact H | exact (@split_tags_blank (lit " , ,") H)].
Defined.

(* ================================================================== *)
(** ** More on the derived views *)
(* ================================================================== *)

Lemma filter_all (A : Type) (l : list A) : filter (fun _ => true) l = l.
Proof. induction l as [|x l IH]; simpl; [|rewrite IH]; reflexivity. Qed.

(** X4. With the tag "All" selected and a query that is empty once
    trimmed and lower-cased, the filtered view is the whole array, whatever
    its elements are: no property of an element is read and nothing is
    thrown. *)
Theorem filtered_all_blank
        (toLowerCase : jsstring -> jsstring) (ps : list value) (q : jsstring) :
  toLowerCase (trim q) = [] ->
  filtered toLowerCase (VArray ps) (lit "All") q = Ok ps.
Proof.
  intros Hq. unfold filtered. cbn [as_array rbind].
  rewrite (@filterM_pure _ (fun _ => true)); [rewrite filter_all; reflexivity|].
  intros p _. unfold filtered_callback. cbv zeta. rewrite Hq. reflexivity.
Qed.

Lemma filtered_all_blank_witness :
  ascii_toLowerCase (trim (lit "  ")) = []
  /\ filtered ascii_toLowerCase (VArray [sunset; VNull; VNumber 7])
              (lit "All") (lit "  ")
     = Ok [sunset; VNull; VNumber 7].
Proof.
  split; [reflexivity|].
  exact (@filtered_all_blank ascii_toLowerCase [sunset; VNull; VNumber 7]
                             (lit "  ") eq_refl).
Defined.

Lemma filtered_photos
      (toLowerCase : jsstring -> jsstring) (ps : list value) (t q : jsstring) :
  forallb is_photo ps = true ->
  filtered toLowerCase (VArray ps) t q
  = Ok (filter (visible toLowerCase t q) ps).
Proof.
  intros Hps. unfold filtered. cbn [as_array rbind].
  apply filterM_pure. intros p Hp. apply filtered_callback_photo.
  rewrite forallb_forall in Hps. apply Hps; exact Hp.
Qed.

Lemma in_tags_collected (ps : list value) (t : jsstring) :
  In t (fold_left uniq_add (flat_map photo_tags ps) [])
  <-> In t (flat_map photo_tags ps).
Proof.
  destruct (@fold_uniq_add_spec (flat_map photo_tags ps) [] (NoDup_nil _))
    as (voc & Hfold & _ & Hin & _).
  rewrite Hfold. simpl. rewrite Hin. simpl. tauto.
Qed.

(** X5. Every tag button but the leading "All" leads somewhere: with a
    query that is empty once trimmed and lower-cased, selecting a label
    that [allTags] lists after "All" shows at least one photo. *)
Theorem listed_tag_shows_a_photo
        (toLowerCase : jsstring -> jsstring)
        (ps labels : list value) (t q : jsstring) :
  forallb is_photo ps = true ->
  toLowerCase (trim q) = [] ->
  allTags (VArray ps) = Ok labels ->
  In (VString t) (tl labels) ->
  exists shown,
    filtered toLowerCase (VArray ps) t q = Ok shown /\ shown <> [].
Proof.
  intros Hps Hq Hlabels Ht.
  rewrite (allTags_photos ps Hps) in Hlabels.
  injection Hlabels as <-. cbn [tl] in Ht.
  apply in_map_iff in Ht as (t' & E & Ht'). injection E as ->.
  apply in_tags_collected in Ht'.
  apply in_flat_map in Ht' as (p & Hp & Htp).
  exists (filter (visible toLowerCase t q) ps). split.
  - apply filtered_photos; exact Hps.
  - assert (In p (filter (visible toLowerCase t q) ps)) as Hin.
    { apply filter_In. split; [exact Hp|]. apply visible_spec.
      split; [right; exact Htp | left; exact Hq]. }
    intros E. rewrite E in Hin. exact Hin.
Qed.

Lemma listed_tag_shows_a_photo_witness :
  (forallb is_photo [sunset; cabin; dune] = true
   /\ ascii_toLowerCase (trim []) = []
   /\ allTags (VArray [sunset; cabin; dune])
      = Ok [VString (lit "All"); VString (lit "beach"); VString (lit "travel")]
   /\ In (VString (lit "travel"))
         (tl [VString (lit "All"); VString (lit "beach"); VString (lit "travel")]))
  /\ exists shown,
      filtered ascii_toLowerCase (VArray [sunset; cabin; dune]) (lit "travel") []
      = Ok shown
      /\ shown <> [].
Proof.
  assert (In (VString (lit "travel"))
             (tl [VString (lit "All"); VString (lit "beach");
                  VString (lit "travel")])) as Hin
      by (right; left; reflexivity).
  split; [repeat split; solve [reflexivity | exact Hin]|].
  exact (@listed_tag_shows_a_photo ascii_toLowerCase [sunset; cabin; dune]
           _ (lit "travel") [] eq_refl eq_refl eq_refl Hin).
Defined.

Lemma filter_visible_none
      (toLowerCase : jsstring -> jsstring) (t q : jsstring) (ps : list value) :
  t <> lit "All" ->
  ~ In t (flat_map photo_tags ps) ->
  filter (visible toLowerCase t q) ps = [].
Proof.
  intros Hall. induction ps as [|p ps IH]; intros Hnone; [reflexivity|].
  cbn [filter]. cbn [flat_map] in Hnone. rewrite in_app_iff in Hnone.
  destruct (visible toLowerCase t q p) eqn:V.
  - apply visible_spec in V as [[E | Hin] _]; [contradiction | tauto].
  - apply IH. tauto.
Qed.

(** X6. A selected tag that is not "All" and that no photo of the list
    carries (as after a fetch that replaced the list) empties the
    gallery: the filtered view is empty for every query, and with no
    request running and no error the section shows the notice for an empty
    gallery, however many photos are loaded. *)
Theorem stale_tag_shows_nothing
        (toLowerCase : jsstring -> jsstring) (s : AppState) (ps : list value) :
  photos s = VArray ps ->
  forallb is_photo ps = true ->
  selectedTag s <> lit "All" ->
  ~ In (selectedTag s) (flat_map photo_tags ps) ->
  filtered toLowerCase (photos s) (selectedTag s) (query s) = Ok []
  /\ (loading s = false -> error s = [] ->
      gallery_of toLowerCase s = Ok EmptyNotice).
Proof.
  intros Hphotos Hps Hall Hnone.
  assert (filtered toLowerCase (photos s) (selectedTag s) (query s) = Ok [])
    as Hfiltered.
  { rewrite Hphotos, (filtered_photos toLowerCase ps _ _ Hps). f_equal.
    apply filter_visible_none; assumption. }
  split; [exact Hfiltered|].
  intros Hl He. unfold gallery_of.
  rewrite Hfiltered, Hphotos, (allTags_photos ps Hps), Hl, He. reflexivity.
Qed.

Lemma stale_tag_shows_nothing_witness :
  (photos (setSelectedTag (lit "forest") (setPhotos (VArray [sunset; cabin]) initialState))
   = VArray [sunset; cabin]
   /\ forallb is_photo [sunset; cabin] = true
   /\ selectedTag (setSelectedTag (lit "forest")
                     (setPhotos (VArray [sunset; cabin]) initialState))
      <> lit "All")
  /\ gallery_of ascii_toLowerCase
       (setSelectedTag (lit "forest")
          (setPhotos (VArray [sunset; cabin]) initialState))
     = Ok EmptyNotice.
Proof.
  assert (lit "forest" <> lit "All") as Hne by discriminate.
  split; [repeat split; exact Hne|].
  refine (proj2 (@stale_tag_shows_nothing ascii_toLowerCase
                   (setSelectedTag (lit "forest")
                      (setPhotos (VArray [sunset; cabin]) initialState))
                   [sunset; cabin] eq_refl eq_refl Hne _) eq_refl eq_refl).
  vm_compute. intros H.
  repeat (destruct H as [H | H]; [discriminate H|]). exact H.
Defined.

(** X7. Photos appended to the list never reorder or remove the tag
    buttons already there: the vocabulary of the longer list starts with
    the vocabulary of the shorter one. *)
Theorem allTags_append (ps qs : list value) :
  forallb is_photo (ps ++ qs) = true ->
  exists labels more,
    allTags (VArray ps) = Ok labels
    /\ allTags (VArray (ps ++ qs)) = Ok (labels ++ more).
Proof.
  intros Hall. pose proof Hall as Hsplit.
  rewrite forallb_app in Hsplit. apply andb_true_iff in Hsplit as [Hps _].
  rewrite (allTags_photos ps Hps), (allTags_photos (ps ++ qs) Hall).
  rewrite flat_map_app, fold_left_app.
  destruct (@fold_uniq_add_spec (flat_map photo_tags ps) [] (NoDup_nil _))
    as (voc & Hfold & Hnd & _). simpl in Hfold, Hnd. rewrite Hfold.
  destruct (@fold_uniq_add_spec (flat_map photo_tags qs) voc Hnd)
    as (more & Hmore & _). rewrite Hmore.
  exists (VString (lit "All") :: map VString voc), (map VString more).
  split; [reflexivity|]. rewrite map_app. reflexivity.
Qed.

Lemma allTags_append_witness :
  forallb is_photo ([sunset] ++ [cabin; dune]) = true
  /\ exists labels more,
      allTags (VArray [sunset]) = Ok labels
      /\ allTags (VArray ([sunset] ++ [cabin; dune])) = Ok (labels ++ more).
Proof.
  split; [reflexivity|].
  exact (@allTags_append [sunset] [cabin; dune] eq_refl).
Defined.

Lemma forEachM_throws {S} (f : S -> value -> result S) (x : value)
      (ps1 ps2 : list value) :
  (forall s, f s x = TypeError) ->
  forall s, forEachM f (ps1 ++ x :: ps2) s = TypeError.
Proof.
  intros Hx. induction ps1 as [|a ps1 IH]; intros s; cbn [app forEachM].
  - rewrite Hx. reflexivity.
  - destruct (f s a); cbn [rbind]; [apply IH | reflexivity].
Qed.

Lemma filterM_throws (f : value -> result bool) (x : value)
      (ps1 ps2 : list value) :
  f x = TypeError -> filterM f (ps1 ++ x :: ps2) = TypeError.
Proof.
  intros Hx. induction ps1 as [|a ps1 IH]; cbn [app filterM].
  - rewrite Hx. reflexivity.
  - rewrite IH. destruct (f a); reflexivity.
Qed.

(** X8. A [null] entry anywhere in the photo list makes the tag
    vocabulary throw, and makes the filtered view throw as soon as a tag
    other than "All" is selected. *)
Theorem null_photo_throws
        (toLowerCase : jsstring -> jsstring)
        (ps1 ps2 : list value) (t q : jsstring) :
  t <> lit "All" ->
  allTags (VArray (ps1 ++ VNull :: ps2)) = TypeError
  /\ filtered toLowerCase (VArray (ps1 ++ VNull :: ps2)) t q = TypeError.
Proof.
  intros Ht. split.
  - unfold allTags. cbn [as_array rbind].
    rewrite forEachM_throws; [reflexivity|]. reflexivity.
  - unfold filtered. cbn [as_array rbind]. apply filterM_throws.
    unfold filtered_callback.
    destruct (str_eqb t (lit "All")) eqn:E; [|reflexivity].
    apply str_eqb_eq in E. contradiction.
Qed.

Lemma null_photo_throws_witness :
  lit "beach" <> lit "All"
  /\ filtered ascii_toLowerCase (VArray ([sunset] ++ VNull :: [cabin]))
              (lit "beach") []
     = TypeError.
Proof.
  assert (lit "beach" <> lit "All") as Hne by discriminate.
  split; [exact Hne|].
  exact (proj2 (@null_photo_throws ascii_toLowerCase [sunset] [cabin]
                  (lit "beach") [] Hne)).
Defined.

(* ================================================================== *)
(** ** More on the list fetch *)
(* ================================================================== *)

(** X9. A list fetch always comes to an end without throwing, whatever
    the network does; it leaves the loading flag false and touches neither
    the form fields nor the tag, featured and query selections. *)
Theorem fetchPhotos_frame
        (env : option jsstring) (r : AppState) (net : network) (w : world) :
  let s := state w in
  let s' := state (snd (fetchPhotos env r net w)) in
  fst (fetchPhotos env r net w) = Returned tt
  /\ loading s' = false
  /\ title s' = title s /\ description s' = description s
  /\ imageUrl s' = imageUrl s /\ tags s' = tags s /\ featured s' = featured s
  /\ selectedTag s' = selectedTag s
  /\ showFeaturedOnly s' = showFeaturedOnly s
  /\ query s' = query s.
Proof.
  cbv zeta. rewrite fetchPhotos_run. cbn [fst snd state].
  destruct (net (sent w ++ [list_request env r])) as [e|res];
    [repeat split|].
  destruct (ok res); [|repeat split].
  destruct (content res); repeat split.
Qed.

(** X10. A list fetch answered with an ok status and a JSON body puts
    the decoded body in place of the photos held before, whatever they
    were, and leaves no error. *)
Theorem fetch_success_replaces_photos
        (env : option jsstring) (r : AppState) (net : network) (w : world)
        (res : response) (doc : json) :
  net (sent w ++ [list_request env r]) = Resolved res ->
  ok res = true ->
  content res = JsonBody doc ->
  state (snd (fetchPhotos env r net w))
  = setLoading false (setPhotos (JSON_parse doc) (setError [] (state w))).
Proof.
  intros Hnet Hok Hdoc. rewrite fetchPhotos_run. cbn [snd state].
  rewrite Hnet, Hok, Hdoc. reflexivity.
Qed.

Lemma fetch_success_replaces_photos_witness :
  (backend_up (sent (mkWorld draft []) ++ [list_request None draft])
   = Resolved (mkResponse 200 (JsonBody (JArray [
       JObject [ (lit "title", JString (lit "Sunset"));
                 (lit "tags", JArray [JString (lit "beach")]) ] ])))
   /\ ok (mkResponse 200 (JsonBody (JArray [
       JObject [ (lit "title", JString (lit "Sunset"));
                 (lit "tags", JArray [JString (lit "beach")]) ] ]))) = true)
  /\ photos (state (snd (fetchPhotos None draft backend_up (mkWorld draft []))))
     = VArray [VObject [ (lit "title", VString (lit "Sunset"));
                         (lit "tags", VArray [VString (lit "beach")]) ]].
Proof.
  split; [split; reflexivity|].
  rewrite (@fetch_success_replaces_photos None draft backend_up
             (mkWorld draft []) _ _ eq_refl eq_refl eq_refl).
  reflexivity.
Defined.

(** Decoding keeps the last of the members of a name, and reads an
    integer literal as the nearest double. *)
Example JSON_parse_members_and_numbers :
  JSON_parse (JObject [ (lit "tags", JArray [JString (lit "x")]);
                        (lit "title", JString (lit "Dune"));
                        (lit "tags", JArray [JString (lit "y")]) ])
  = VObject [ (lit "tags", VArray [VString (lit "y")]);
              (lit "title", VString (lit "Dune")) ]
  /\ JSON_parse (JNumber 9007199254740993) = VNumber 9007199254740992
  /\ JSON_parse (JNumber 42) = VNumber 42.
Proof. repeat split. Qed.

Lemma JSON_parse_not_array (doc : json) :
  (forall l, doc <> JArray l) -> forall l, JSON_parse doc <> VArray l.
Proof.
  intros Hdoc l. destruct doc; cbn [JSON_parse]; try discriminate.
  exfalso. exact (Hdoc _ eq_refl).
Qed.

Lemma not_array_throws
      (toLowerCase : jsstring -> jsstring) (v : value) (t q : jsstring) :
  (forall l, v <> VArray l) ->
  allTags v = TypeError /\ filtered toLowerCase v t q = TypeError.
Proof.
  intros Hv. destruct v; try (split; reflexivity).
  exfalso. exact (Hv _ eq_refl).
Qed.

(** X11. A list fetch answered with an ok status and a JSON body that
    is not an array (an object, say) is taken as a success: the body
    becomes the photos and no error is set. Both derived views, and with
    them the rendering of the gallery, then throw. *)
Theorem fetch_non_array_breaks_views
        (toLowerCase : jsstring -> jsstring)
        (env : option jsstring) (r : AppState) (net : network) (w : world)
        (res : response) (doc : json) (t q : jsstring) :
  net (sent w ++ [list_request env r]) = Resolved res ->
  ok res = true ->
  content res = JsonBody doc ->
  (forall l, doc <> JArray l) ->
  let s' := state (snd (fetchPhotos env r net w)) in
  error s' = []
  /\ photos s' = JSON_parse doc
  /\ allTags (photos s') = TypeError
  /\ filtered toLowerCase (photos s') t q = TypeError
  /\ gallery_of toLowerCase s' = TypeError.
Proof.
  intros Hnet Hok Hdoc Hshape s'. subst s'.
  rewrite fetchPhotos_run. cbn [snd state]. rewrite Hnet, Hok, Hdoc.
  cbn [error photos setLoading setPhotos setError].
  destruct (@not_array_throws toLowerCase (JSON_parse doc) t q
              (JSON_parse_not_array Hshape)) as [Htags Hfiltered].
  repeat split; try assumption.
  unfold gallery_of. cbn [photos setLoading setPhotos setError].
  rewrite Htags. reflexivity.
Qed.

Lemma fetch_non_array_breaks_views_witness :
  ((fun _ => Resolved (mkResponse 200 (JsonBody (JObject []))))
     (sent (mkWorld initialState []) ++ [list_request None initialState])
   = Resolved (mkResponse 200 (JsonBody (JObject [])))
   /\ ok (mkResponse 200 (JsonBody (JObject []))) = true
   /\ (forall l, JObject [] <> JArray l))
  /\ gallery_of ascii_toLowerCase
       (state (snd (fetchPhotos None initialState
                      (fun _ => Resolved (mkResponse 200 (JsonBody (JObject []))))
                      (mkWorld initialState []))))
     = TypeError.
Proof.
  assert (forall l, JObject [] <> JArray l) as Hshape by (intros l; discriminate).
  split; [repeat split; exact Hshape|].
  exact (proj2 (proj2 (proj2 (proj2
    (@fetch_non_array_breaks_views ascii_toLowerCase None initialState
       (fun _ => Resolved (mkResponse 200 (JsonBody (JObject []))))
       (mkWorld initialState []) _ _ (lit "All") []
       eq_refl eq_refl eq_refl Hshape))))).
Defined.

(** X12. After a list fetch that failed with a non-empty message, the
    gallery section shows that message in place of the photos, which are
    still held in the state. *)
Theorem failed_fetch_shows_error_box
        (toLowerCase : jsstring -> jsstring)
        (env : option jsstring) (r : AppState) (net : network) (w : world)
        (ps : list value) :
  photos (state w) = VArray ps ->
  forallb is_photo ps = true ->
  list_fetch_fails (net (sent w ++ [list_request env r])) = true ->
  failure_message (net (sent w ++ [list_request env r])) <> [] ->
  let s' := state (snd (fetchPhotos env r net w)) in
  photos s' = VArray ps
  /\ gallery_of toLowerCase s'
     = Ok (ErrorBox (failure_message (net (sent w ++ [list_request env r])))).
Proof.
  intros Hphotos Hps Hfail Hmsg s'. subst s'.
  rewrite fetchPhotos_run. cbn [snd state].
  assert (forall s0,
             photos s0 = VArray ps ->
             photos (setLoading false
                       (setError (failure_message
                                    (net (sent w ++ [list_request env r]))) s0))
             = VArray ps
             /\ gallery_of toLowerCase
                  (setLoading false
                     (setError (failure_message
                                  (net (sent w ++ [list_request env r]))) s0))
                = Ok (ErrorBox (failure_message
                                  (net (sent w ++ [list_request env r])))))
    as Hbox.
  { intros s0 Hs0. split; [exact Hs0|]. unfold gallery_of.
    cbn [photos loading error selectedTag query setLoading setError].
    rewrite Hs0, (allTags_photos ps Hps), (filtered_photos _ ps _ _ Hps).
    cbn [rbind].
    destruct (failure_message (net (sent w ++ [list_request env r])));
      [contradiction | reflexivity]. }
  revert Hfail Hbox. unfold list_fetch_fails, failure_message.
  destruct (net (sent w ++ [list_request env r])) as [e|res].
  - intros _ Hbox. apply Hbox. exact Hphotos.
  - destruct (ok res); cbn [negb orb].
    + destruct (content res); [discriminate|].
      intros _ Hbox. apply Hbox. exact Hphotos.
    + intros _ Hbox. apply Hbox. exact Hphotos.
Qed.

Lemma failed_fetch_shows_error_box_witness :
  (photos (state (mkWorld (setPhotos (VArray [sunset]) initialState) []))
   = VArray [sunset]
   /\ forallb is_photo [sunset] = true
   /\ list_fetch_fails
        (backend_down
           (sent (mkWorld (setPhotos (VArray [sunset]) initialState) [])
            ++ [list_request None initialState])) = true)
  /\ gallery_of ascii_toLowerCase
       (state (snd (fetchPhotos None initialState backend_down
                      (mkWorld (setPhotos (VArray [sunset]) initialState) []))))
     = Ok (ErrorBox (lit "Failed to fetch")).
Proof.
  split; [repeat split|].
  refine (proj2 (@failed_fetch_shows_error_box ascii_toLowerCase None
                   initialState backend_down
                   (mkWorld (setPhotos (VArray [sunset]) initialState) [])
                   [sunset] eq_refl eq_refl eq_refl _)).
  discriminate.
Defined.

(* ================================================================== *)
(** ** More on the add form *)
(* ================================================================== *)

Lemma handleAdd_invalid_run
      (env : option jsstring) (r : AppState) (net : network) (w : world) :
  (is_empty (title r) || is_empty (imageUrl r))%bool = true ->
  handleAdd env r net w
  = (Returned tt,
     mkWorld (setError (lit "Title and Image URL are required")
                       (setError [] (state w)))
             (sent w)).
Proof.
  intros Hinvalid. unfold handleAdd. run_handler. rewrite Hinvalid.
  reflexivity.
Qed.

Lemma valid_form (r : AppState) :
  (is_empty (title r) || is_empty (imageUrl r))%bool = false ->
  is_empty (title r) = false /\ is_empty (imageUrl r) = false.
Proof. apply orb_false_iff. Qed.

(** What a submission sends, by cases on the form and on the answer to
    the create request. *)
Lemma handleAdd_sent
      (env : option jsstring) (r : AppState) (net : network) (w : world) :
  sent (snd (handleAdd env r net w))
  = sent w
    ++ (if (is_empty (title r) || is_empty (imageUrl r))%bool then []
        else create_request env r
             :: match net (sent w ++ [create_request env r]) with
                | Rejected _ => []
                | Resolved res =>
                    if ok res then [list_request env r] else []
                end).
Proof.
  destruct (is_empty (title r) || is_empty (imageUrl r))%bool eqn:V.
  - rewrite (handleAdd_invalid_run env r net w V). cbn [snd sent].
    rewrite app_nil_r. reflexivity.
  - destruct (valid_form r V) as [Ht Hi].
    rewrite (handleAdd_valid_run env r net w Ht Hi). cbv zeta.
    destruct (net (sent w ++ [create_request env r])) as [e|res];
      [reflexivity|].
    destruct (ok res); [|reflexivity].
    rewrite fetchPhotos_run. cbn [snd sent]. rewrite <- app_assoc.
    reflexivity.
Qed.

(** X13. Validation is the only thing that keeps a submission off the
    network, and it tests emptiness only: the handler sends nothing if and
    only if the title or the image URL is the empty string. *)
Theorem submit_sends_iff_filled
        (env : option jsstring) (r : AppState) (net : network) (w : world) :
  sent (snd (handleAdd env r net w)) = sent w
  <-> title r = [] \/ imageUrl r = [].
Proof.
  rewrite handleAdd_sent, <- !is_empty_nil, <- orb_true_iff.
  destruct (is_empty (title r) || is_empty (imageUrl r))%bool.
  - rewrite app_nil_r. tauto.
  - split; [|discriminate]. intros H. exfalso.
    apply (f_equal (@List.length request)) in H.
    rewrite length_app in H. cbn [List.length] in H. lia.
Qed.

(** X14. The handler of the form never throws, and a submission sends
    at most two requests, the create request first. *)
Theorem handleAdd_never_throws
        (env : option jsstring) (r : AppState) (net : network) (w : world) :
  fst (handleAdd env r net w) = Returned tt
  /\ exists extra,
      sent (snd (handleAdd env r net w)) = sent w ++ extra
      /\ (List.length extra <= 2)%nat
      /\ (extra = [] \/ hd_error extra = Some (create_request env r)).
Proof.
  split.
  - destruct (is_empty (title r) || is_empty (imageUrl r))%bool eqn:V.
    + rewrite (handleAdd_invalid_run env r net w V). reflexivity.
    + destruct (valid_form r V) as [Ht Hi].
      rewrite (handleAdd_valid_run env r net w Ht Hi). cbv zeta.
      destruct (net (sent w ++ [create_request env r])) as [e|res];
        [reflexivity|].
      destruct (ok res); [|reflexivity].
      rewrite fetchPhotos_run. reflexivity.
  - eexists. split; [apply handleAdd_sent|].
    destruct (is_empty (title r) || is_empty (imageUrl r))%bool.
    + split; [simpl; lia | left; reflexivity].
    + split; [|right; reflexivity].
      destruct (net (sent w ++ [create_request env r])) as [e|res];
        [simpl; lia|].
      destruct (ok res); simpl; lia.
Qed.

(** X15. When the create request is rejected or answered with a status
    that is not ok, nothing is fetched, the form keeps what was typed and
    the photos stay: the state changes in its error only, which is the
    message of the rejection or "Failed to save photo". *)
Theorem create_failure_keeps_form
        (env : option jsstring) (r : AppState) (net : network) (w : world) :
  is_empty (title r) = false ->
  is_empty (imageUrl r) = false ->
  (forall res, net (sent w ++ [create_request env r]) = Resolved res ->
               ok res = false) ->
  snd (handleAdd env r net w)
  = mkWorld
      (setError
         match net (sent w ++ [create_request env r]) with
         | Rejected e => e
         | Resolved _ => lit "Failed to save photo"
         end
         (state w))
      (sent w ++ [create_request env r]).
Proof.
  intros Ht Hi Hfail.
  rewrite (handleAdd_valid_run env r net w Ht Hi). cbv zeta.
  destruct (net (sent w ++ [create_request env r])) as [e|res];
    [reflexivity|].
  rewrite (Hfail res eq_refl). reflexivity.
Qed.

Lemma create_failure_keeps_form_witness :
  (is_empty (title draft) = false
   /\ is_empty (imageUrl draft) = false
   /\ (forall res,
          backend_broken (sent (mkWorld draft []) ++ [create_request None draft])
          = Resolved res -> ok res = false))
  /\ snd (handleAdd None draft backend_broken (mkWorld draft []))
     = mkWorld (setError (lit "Failed to save photo") draft)
               [create_request None draft].
Proof.
  assert (forall res,
             backend_broken
               (sent (mkWorld draft []) ++ [create_request None draft])
             = Resolved res -> ok res = false) as Hfail.
  { intros res H. injection H as <-. reflexivity. }
  split; [repeat split; exact Hfail|].
  exact (@create_failure_keeps_form None draft backend_broken
           (mkWorld draft []) eq_refl eq_refl Hfail).
Defined.

(** X16. When the create request succeeds and the list fetch after it
    fails, the form is emptied all the same and the error shown is the one
    of the list fetch; the photos are the ones held before, without the
    photo just saved. *)
Theorem create_then_failed_refetch
        (env : option jsstring) (r : AppState) (net : network) (w : world)
        (res : response) :
  is_empty (title r) = false ->
  is_empty (imageUrl r) = false ->
  net (sent w ++ [create_request env r]) = Resolved res ->
  ok res = true ->
  list_fetch_fails
    (net (sent w ++ [create_request env r; list_request env r])) = true ->
  state (snd (handleAdd env r net w))
  = setLoading false
      (setError
         (failure_message
            (net (sent w ++ [create_request env r; list_request env r])))
         (form_cleared (state w))).
Proof.
  intros Ht Hi Hnet Hok Hfail.
  rewrite (handleAdd_valid_run env r net w Ht Hi). cbv zeta.
  rewrite Hnet, Hok, fetchPhotos_run. cbn [snd state sent].
  rewrite <- app_assoc. cbn [app].
  revert Hfail. unfold list_fetch_fails, failure_message.
  destruct (net (sent w ++ [create_request env r; list_request env r]))
    as [e|res'].
  - intros _. reflexivity.
  - destruct (ok res'); cbn [negb orb].
    + destruct (content res'); [discriminate|]. intros _. reflexivity.
    + intros _. reflexivity.
Qed.

Lemma create_then_failed_refetch_witness :
  (is_empty (title draft) = false
   /\ is_empty (imageUrl draft) = false
   /\ (fun log => match log with
                  | [_] => Resolved (mkResponse 201 (NotJson []))
                  | _ => Rejected (lit "Failed to fetch")
                  end)
        (sent (mkWorld draft []) ++ [create_request None draft])
      = Resolved (mkResponse 201 (NotJson []))
   /\ ok (mkResponse 201 (NotJson [])) = true)
  /\ state (snd (handleAdd None draft
                   (fun log => match log with
                               | [_] => Resolved (mkResponse 201 (NotJson []))
                               | _ => Rejected (lit "Failed to fetch")
                               end)
                   (mkWorld draft [])))
     = setLoading false
         (setError (lit "Failed to fetch") (form_cleared draft)).
Proof.
  split; [repeat split|].
  exact (@create_then_failed_refetch None draft
           (fun log => match log with
                       | [_] => Resolved (mkResponse 201 (NotJson []))
                       | _ => Rejected (lit "Failed to fetch")
                       end)
           (mkWorld draft []) _ eq_refl eq_refl eq_refl eq_refl eq_refl).
Defined.

Lemma strings_of_map (l : list jsstring) : strings_of (map VString l) = l.
Proof.
  induction l as [|x l IH]; [reflexivity|].
  cbn [map strings_of flat_map app] in *. unfold strings_of in IH.
  rewrite IH. reflexivity.
Qed.

(** X17. What the add form sends is a photo in the sense of the views:
    the body of the create request, decoded again, is an object the derived
    views accept, with the title and description as typed and the tags of
    the tags input. *)
Theorem create_body_is_photo (env : option jsstring) (r : AppState) :
  exists doc,
    body (create_request env r) = Some doc
    /\ is_photo (JSON_parse doc) = true
    /\ photo_title (JSON_parse doc) = title r
    /\ photo_description (JSON_parse doc) = description r
    /\ photo_tags (JSON_parse doc) = split_tags (tags r).
Proof.
  unfold create_request, payload. cbn [body JSON_stringify].
  eexists. split; [reflexivity|].
  unfold or_else. cbn [truthy].
  assert (forall l : list jsstring,
             map JSON_parse
               (map (fun x => match JSON_stringify x with
                              | Some j => j
                              | None => JNull
                              end) (map VString l))
             = map VString l) as Htags.
  { intros l. rewrite !map_map. apply map_ext. reflexivity. }
  assert (forall l : list jsstring, forallb is_string (map VString l) = true)
    as Hstrings.
  { induction l as [|x l IH]; [reflexivity | exact IH]. }
  destruct (description r) as [|c d]; cbn [is_empty negb JSON_stringify];
    unfold is_photo, photo_title, photo_description, photo_tags, field;
    cbn [JSON_parse]; rewrite Htags;
    vm_compute lookup;
    cbn [is_string is_tag_list andb]; rewrite Hstrings, strings_of_map;
    repeat split.
Qed.

(* ================================================================== *)
(** ** Events *)
(* ================================================================== *)

(** X18. Typing in the search box or in the form, ticking the featured
    box of the form and clicking a tag button send nothing, and leave the
    photos, the error and the loading flag as they are: an error stays
    on screen while the user types. *)
Theorem local_events_stay_local
        (env : option jsstring) (e : event) (net : network) (w : world) :
  is_local e = true ->
  let w' := snd (dispatch env e net w) in
  fst (dispatch env e net w) = Returned tt
  /\ sent w' = sent w
  /\ photos (state w') = photos (state w)
  /\ error (state w') = error (state w)
  /\ loading (state w') = loading (state w)
  /\ showFeaturedOnly (state w') = showFeaturedOnly (state w).
Proof.
  intros Hlocal. destruct e; try discriminate; repeat split.
Qed.

Lemma local_events_stay_local_witness :
  is_local (ChangeQuery (lit "cab")) = true
  /\ sent (snd (dispatch None (ChangeQuery (lit "cab")) backend_up
                         (mkWorld initialState [])))
     = [].
Proof.
  split; [reflexivity|].
  exact (proj1 (proj2 (@local_events_stay_local None (ChangeQuery (lit "cab"))
                         backend_up (mkWorld initialState []) eq_refl))).
Defined.

(** X19. Changing the "Featured only" box to a new value sends exactly
    one list request, built from the new value: with [featured=true] when
    the box is ticked, without a parameter when it is cleared. Setting it
    to the value it has sends nothing. *)
Theorem toggle_featured_refetches
        (env : option jsstring) (checked : bool) (net : network) (w : world) :
  let w' := snd (dispatch env (ChangeShowFeaturedOnly checked) net w) in
  showFeaturedOnly (state w') = checked
  /\ sent w'
     = sent w
       ++ (if Bool.eqb checked (showFeaturedOnly (state w)) then []
           else [list_request env (setShowFeaturedOnly checked (state w))])
  /\ url (list_request env (setShowFeaturedOnly checked (state w)))
     = baseUrl env ++ lit "/api/photos?"
         ++ (if checked then lit "featured=true" else []).
Proof.
  cbv zeta. unfold dispatch.
  destruct (Bool.eqb checked (showFeaturedOnly (state w))).
  - cbn [snd state sent showFeaturedOnly setShowFeaturedOnly].
    rewrite app_nil_r. repeat split.
    unfold list_request. cbn [url]. rewrite list_params_cases.
    destruct checked; reflexivity.
  - rewrite fetchPhotos_run. cbn [snd state sent].
    split; [|split; [reflexivity|]].
    + destruct (net (sent w ++ [list_request env (setShowFeaturedOnly checked (state w))]))
        as [e|res]; [reflexivity|].
      destruct (ok res); [|reflexivity]. destruct (content res); reflexivity.
    + unfold list_request. cbn [url]. rewrite list_params_cases.
      destruct checked; reflexivity.
Qed.

Lemma dispatch_step
      (env : option jsstring) (e : event) (net : network) (w : world) :
  loading (state w) = false ->
  loading (state (snd (dispatch env e net w))) = false
  /\ exists extra,
      sent (snd (dispatch env e net w)) = sent w ++ extra
      /\ (List.length extra <= 2)%nat.
Proof.
  intros Hl.
  assert (forall r w0,
             loading (state (snd (fetchPhotos env r net w0))) = false
             /\ sent (snd (fetchPhotos env r net w0))
                = sent w0 ++ [list_request env r]) as Hfetch.
  { intros r w0. rewrite fetchPhotos_run. cbn [snd state sent]. split;
      reflexivity. }
  destruct e; unfold dispatch;
    try (split; [exact Hl | exists []; rewrite app_nil_r; split;
                            [reflexivity | simpl; lia]]).
  - destruct (Hfetch (state w) w) as [H1 H2]. split; [exact H1|].
    eexists. split; [exact H2 | simpl; lia].
  - destruct (Bool.eqb checked (showFeaturedOnly (state w))).
    + split; [exact Hl|]. exists []. rewrite app_nil_r. split;
        [reflexivity | simpl; lia].
    + destruct (Hfetch (setShowFeaturedOnly checked (state w))
                       (mkWorld (setShowFeaturedOnly checked (state w)) (sent w)))
        as [H1 H2]. split; [exact H1|].
      eexists. split; [exact H2 | simpl; lia].
  - split.
    + destruct (is_empty (title (state w)) || is_empty (imageUrl (state w)))%bool
        eqn:V.
      * rewrite (handleAdd_invalid_run env (state w) net w V). exact Hl.
      * destruct (valid_form (state w) V) as [Ht Hi].
        rewrite (handleAdd_valid_run env (state w) net w Ht Hi). cbv zeta.
        destruct (net (sent w ++ [create_request env (state w)])) as [e|res];
          [exact Hl|].
        destruct (ok res); [apply Hfetch | exact Hl].
    + eexists. split; [apply handleAdd_sent|].
      destruct (is_empty (title (state w)) || is_empty (imageUrl (state w)))%bool;
        [simpl; lia|].
      destruct (net (sent w ++ [create_request env (state w)])) as [e|res];
        [simpl; lia|].
      destruct (ok res); simpl; lia.
Qed.

(** X20. Whatever the user does and whatever the network answers, once
    the events are dealt with no request is marked as running, the
    requests sent before are still the beginning of the log, and no more
    than two requests were sent for each event. *)
Theorem dispatch_all_invariant
        (env : option jsstring) (es : list event) (net : network) (w : world) :
  loading (state w) = false ->
  loading (state (dispatch_all env es net w)) = false
  /\ exists extra,
      sent (dispatch_all env es net w) = sent w ++ extra
      /\ (List.length extra <= 2 * List.length es)%nat.
Proof.
  revert w. induction es as [|e es IH]; intros w Hl; cbn [dispatch_all].
  - split; [exact Hl|]. exists []. rewrite app_nil_r. split;
      [reflexivity | simpl; lia].
  - destruct (dispatch_step env e net w Hl) as (Hl' & extra & Hsent & Hlen).
    destruct (IH _ Hl') as (Hl'' & extra' & Hsent' & Hlen').
    split; [exact Hl''|]. exists (extra ++ extra'). split.
    + rewrite Hsent', Hsent, app_assoc. reflexivity.
    + rewrite length_app. cbn [List.length]. lia.
Qed.

Lemma dispatch_all_invariant_witness :
  loading (state (mkWorld initialState [])) = false
  /\ loading (state (dispatch_all None
                       [Mount; ChangeTitle (lit "Dune"); Submit;
                        ChangeShowFeaturedOnly true]
                       backend_up (mkWorld initialState [])))
     = false.
Proof.
  split; [reflexivity|].
  exact (proj1 (@dispatch_all_invariant None
                  [Mount; ChangeTitle (lit "Dune"); Submit;
                   ChangeShowFeaturedOnly true]
                  backend_up (mkWorld initialState []) eq_refl)).
Defined.

(** X21. A submission refused by the validation puts its message in
    place of the gallery: with photos loaded and no request running, the
    section shows the error box, not the photos. *)
Theorem invalid_submit_hides_gallery
        (toLowerCase : jsstring -> jsstring)
        (env : option jsstring) (net : network) (w : world) (ps : list value) :
  photos (state w) = VArray ps ->
  forallb is_photo ps = true ->
  loading (state w) = false ->
  title (state w) = [] \/ imageUrl (state w) = [] ->
  gallery_of toLowerCase (state (snd (dispatch env Submit net w)))
  = Ok (ErrorBox (lit "Title and Image URL are required")).
Proof.
  intros Hphotos Hps Hl Hinvalid. unfold dispatch.
  rewrite handleAdd_invalid_run
    by (rewrite orb_true_iff, !is_empty_nil; exact Hinvalid).
  unfold gallery_of.
  cbn [snd state photos loading error selectedTag query setError].
  rewrite Hphotos, (allTags_photos ps Hps), (filtered_photos _ ps _ _ Hps), Hl.
  reflexivity.
Qed.

Lemma invalid_submit_hides_gallery_witness :
  (photos (state (mkWorld (setPhotos (VArray [sunset]) initialState) []))
   = VArray [sunset]
   /\ forallb is_photo [sunset] = true
   /\ loading (state (mkWorld (setPhotos (VArray [sunset]) initialState) []))
      = false
   /\ (title (state (mkWorld (setPhotos (VArray [sunset]) initialState) [])) = []
       \/ imageUrl (state (mkWorld (setPhotos (VArray [sunset]) initialState) []))
          = []))
  /\ gallery_of ascii_toLowerCase
       (state (snd (dispatch None Submit backend_up
                      (mkWorld (setPhotos (VArray [sunset]) initialState) []))))
     = Ok (ErrorBox (lit "Title and Image URL are required")).
Proof.
  split; [repeat split; left; reflexivity|].
  exact (@invalid_submit_hides_gallery ascii_toLowerCase None backend_up
           (mkWorld (setPhotos (VArray [sunset]) initialState) []) [sunset]
           eq_refl eq_refl eq_refl (or_introl eq_refl)).
Defined.

(** X22. Submitting again right after a submission that succeeded sends
    nothing: the form was emptied, so the second submission is refused by
    the validation. *)
Theorem resubmit_after_success_refused
        (env : option jsstring) (net : network) (w : world) (res : response) :
  is_empty (title (state w)) = false ->
  is_empty (imageUrl (state w)) = false ->
  net (sent w ++ [create_request env (state w)]) = Resolved res ->
  ok res = true ->
  let w1 := snd (dispatch env Submit net w) in
  let w2 := snd (dispatch env Submit net w1) in
  sent w2 = sent w1
  /\ error (state w2) = lit "Title and Image URL are required".
Proof.
  intros Ht Hi Hnet Hok w1 w2. subst w2 w1. unfold dispatch.
  assert (title (state (snd (handleAdd env (state w) net w))) = []) as Hcleared.
  { rewrite (handleAdd_valid_run env (state w) net w Ht Hi). cbv zeta.
    rewrite Hnet, Hok, fetchPhotos_run. cbn [snd state sent].
    destruct (net ((sent w ++ [create_request env (state w)])
                     ++ [list_request env (state w)])) as [e|res'];
      [reflexivity|].
    destruct (ok res'); [|reflexivity]. destruct (content res'); reflexivity. }
  rewrite (handleAdd_invalid_run env _ net (snd (handleAdd env (state w) net w)))
    by (rewrite Hcleared; reflexivity).
  split; reflexivity.
Qed.

Lemma resubmit_after_success_refused_witness :
  (is_empty (title (state (mkWorld draft []))) = false
   /\ is_empty (imageUrl (state (mkWorld draft []))) = false
   /\ backend_up (sent (mkWorld draft [])
                  ++ [create_request None (state (mkWorld draft []))])
      = Resolved (mkResponse 201 (JsonBody JNull))
   /\ ok (mkResponse 201 (JsonBody JNull)) = true)
  /\ error (state (snd (dispatch None Submit backend_up
                          (snd (dispatch None Submit backend_up
                                  (mkWorld draft []))))))
     = lit "Title and Image URL are required".
Proof.
  split; [repeat split|].
  exact (proj2 (@resubmit_after_success_refused None backend_up
                  (mkWorld draft []) _ eq_refl eq_refl eq_refl eq_refl)).
Defined.

(** X23. A submission that failed at the create request can be repeated
    as it is: the form still holds what was typed, so submitting again
    sends the same create request once more. *)
Theorem resubmit_after_failure_retries
        (env : option jsstring) (net : network) (w : world) :
  is_empty (title (state w)) = false ->
  is_empty (imageUrl (state w)) = false ->
  (forall res, net (sent w ++ [create_request env (state w)]) = Resolved res ->
               ok res = false) ->
  let w1 := snd (dispatch env Submit net w) in
  let w2 := snd (dispatch env Submit net w1) in
  sent w1 = sent w ++ [create_request env (state w)]
  /\ exists rest,
      sent w2 = sent w1 ++ create_request env (state w) :: rest.
Proof.
  intros Ht Hi Hfail w1 w2. subst w2 w1. unfold dispatch.
  assert (snd (handleAdd env (state w) net w)
          = mkWorld
              (setError
                 match net (sent w ++ [create_request env (state w)]) with
                 | Rejected e => e
                 | Resolved _ => lit "Failed to save photo"
                 end (state w))
              (sent w ++ [create_request env (state w)])) as Hfirst.
  { rewrite (handleAdd_valid_run env (state w) net w Ht Hi). cbv zeta.
    destruct (net (sent w ++ [create_request env (state w)])) as [e|res];
      [reflexivity|].
    rewrite (Hfail res eq_refl). reflexivity. }
  rewrite Hfirst. split; [reflexivity|].
  rewrite handleAdd_sent. cbn [state sent title imageUrl setError].
  rewrite Ht, Hi. cbn [orb]. eexists. reflexivity.
Qed.

Lemma resubmit_after_failure_retries_witness :
  (is_empty (title (state (mkWorld draft []))) = false
   /\ is_empty (imageUrl (state (mkWorld draft []))) = false
   /\ (forall res,
          backend_down (sent (mkWorld draft [])
                        ++ [create_request None (state (mkWorld draft []))])
          = Resolved res -> ok res = false))
  /\ sent (snd (dispatch None Submit backend_down (mkWorld draft [])))
     = [] ++ [create_request None draft].
Proof.
  assert (forall res,
             backend_down (sent (mkWorld draft [])
                           ++ [create_request None (state (mkWorld draft []))])
             = Resolved res -> ok res = false) as Hfail
      by (intros res H; discriminate H).
  split; [repeat split; exact Hfail|].
  exact (proj1 (@resubmit_after_failure_retries None backend_down
                  (mkWorld draft []) eq_refl eq_refl Hfail)).
Defined.

(* ================================================================== *)
(** ** Search box and tag buttons *)
(* ================================================================== *)

Lemma trim_idempotent (q : jsstring) : trim (trim q) = trim q.
Proof.
  apply trim_unique.
  destruct (trim_trimmed_from q) as (l & r & _ & _ & _ & Hhead & Hlast).
  exists [], []. rewrite app_nil_r. repeat split; try assumption; constructor.
Qed.

Lemma filterM_ext (f g : value -> result bool) (l : list value) :
  (forall x, f x = g x) -> filterM f l = filterM g l.
Proof.
  intros Hfg. induction l as [|x l IH]; cbn [filterM]; [reflexivity|].
  rewrite Hfg, IH. reflexivity.
Qed.

(** X24. White space around the text of the search box is ignored: a
    query and the same query trimmed give the same filtered view, on every
    value of the photo list. *)
Theorem filtered_query_trimmed
        (toLowerCase : jsstring -> jsstring) (v : value) (t q : jsstring) :
  filtered toLowerCase v t (trim q) = filtered toLowerCase v t q.
Proof.
  unfold filtered. destruct v; try reflexivity. cbn [as_array rbind].
  apply filterM_ext. intros p. unfold filtered_callback.
  rewrite trim_idempotent. reflexivity.
Qed.

(** X25. Selecting a tag only narrows what "All" shows for the same
    query: every photo in the filtered view of a tag is in the filtered
    view of "All". *)
Theorem tag_narrows_all
        (toLowerCase : jsstring -> jsstring) (ps : list value) (t q : jsstring) :
  forallb is_photo ps = true ->
  exists shown everything,
    filtered toLowerCase (VArray ps) t q = Ok shown
    /\ filtered toLowerCase (VArray ps) (lit "All") q = Ok everything
    /\ incl shown everything.
Proof.
  intros Hps.
  exists (filter (visible toLowerCase t q) ps),
         (filter (visible toLowerCase (lit "All") q) ps).
  split; [apply filtered_photos; exact Hps|].
  split; [apply filtered_photos; exact Hps|].
  intros p Hp. apply filter_In in Hp as [Hin Hv]. apply filter_In.
  split; [exact Hin|]. apply visible_spec. apply visible_spec in Hv as [_ Hq].
  split; [left; reflexivity | exact Hq].
Qed.

Lemma tag_narrows_all_witness :
  forallb is_photo [sunset; cabin; dune] = true
  /\ exists shown everything,
      filtered ascii_toLowerCase (VArray [sunset; cabin; dune]) (lit "beach") []
      = Ok shown
      /\ filtered ascii_toLowerCase (VArray [sunset; cabin; dune]) (lit "All") []
         = Ok everything
      /\ incl shown everything.
Proof.
  split; [reflexivity|].
  exact (@tag_narrows_all ascii_toLowerCase [sunset; cabin; dune]
                          (lit "beach") [] eq_refl).
Defined.

Lemma str_eqb_sym (a b : jsstring) : str_eqb a b = str_eqb b a.
Proof.
  destruct (str_eqb a b) eqn:E.
  - apply str_eqb_eq in E. subst. symmetry. apply str_eqb_refl.
  - destruct (str_eqb b a) eqn:E'; [|reflexivity].
    apply str_eqb_eq in E'. subst. rewrite str_eqb_refl in E. discriminate.
Qed.

Lemma active_in_nodup (sel : jsstring) (voc : list jsstring) :
  NoDup voc ->
  List.length (filter (fun t => str_eqb t sel) voc)
  = if existsb (str_eqb sel) voc then 1%nat else 0%nat.
Proof.
  induction 1 as [|x voc Hx Hnd IH]; [reflexivity|].
  cbn [filter existsb]. rewrite (str_eqb_sym sel x).
  destruct (str_eqb x sel) eqn:E; cbn [orb List.length]; [|exact IH].
  apply str_eqb_eq in E. subst x. rewrite IH.
  apply existsb_str_eqb_false in Hx. rewrite Hx. reflexivity.
Qed.

Lemma active_buttons_strings (sel : jsstring) (voc : list jsstring) :
  filter snd (map (fun t => (t, strict_equals_string t sel)) (map VString voc))
  = map (fun t => (VString t, true)) (filter (fun t => str_eqb t sel) voc).
Proof.
  induction voc as [|x voc IH]; [reflexivity|].
  cbn [map filter snd strict_equals_string].
  destruct (str_eqb x sel); cbn [map]; rewrite IH; reflexivity.
Qed.

(** X26. With a tag other than "All" selected, at most one tag button
    is drawn active, and exactly one when some photo carries the selected
    tag. *)
Theorem one_active_button (s : AppState) (ps : list value) :
  photos s = VArray ps ->
  forallb is_photo ps = true ->
  selectedTag s <> lit "All" ->
  exists buttons,
    tag_buttons s = Ok buttons
    /\ List.length (filter snd buttons)
       = if existsb (str_eqb (selectedTag s)) (flat_map photo_tags ps)
         then 1%nat else 0%nat.
Proof.
  intros Hphotos Hps Hsel. unfold tag_buttons.
  rewrite Hphotos, (allTags_photos ps Hps). cbn [rbind].
  eexists. split; [reflexivity|].
  cbn [map filter snd strict_equals_string].
  destruct (str_eqb (lit "All") (selectedTag s)) eqn:E.
  - apply str_eqb_eq in E. exfalso. apply Hsel. symmetry. exact E.
  - rewrite active_buttons_strings, length_map.
    destruct (@fold_uniq_add_spec (flat_map photo_tags ps) [] (NoDup_nil _))
      as (voc & Hfold & Hnd & _). simpl in Hfold, Hnd.
    pose proof (in_tags_collected ps (selectedTag s)) as Hin.
    rewrite Hfold in *. rewrite (active_in_nodup _ Hnd).
    rewrite <- !existsb_str_eqb in Hin.
    destruct (existsb (str_eqb (selectedTag s)) voc),
      (existsb (str_eqb (selectedTag s)) (flat_map photo_tags ps));
      try reflexivity; destruct Hin as [H1 H2];
      [discriminate (H1 eq_refl) | discriminate (H2 eq_refl)].
Qed.

Lemma one_active_button_witness :
  (photos (setSelectedTag (lit "travel")
             (setPhotos (VArray [sunset; cabin]) initialState))
   = VArray [sunset; cabin]
   /\ forallb is_photo [sunset; cabin] = true
   /\ selectedTag (setSelectedTag (lit "travel")
                     (setPhotos (VArray [sunset; cabin]) initialState))
      <> lit "All")
  /\ exists buttons,
      tag_buttons (setSelectedTag (lit "travel")
                     (setPhotos (VArray [sunset; cabin]) initialState))
      = Ok buttons
      /\ List.length (filter snd buttons) = 1%nat.
Proof.
  assert (lit "travel" <> lit "All") as Hne by discriminate.
  split; [repeat split; exact Hne|].
  exact (@one_active_button
           (setSelectedTag (lit "travel")
              (setPhotos (VArray [sunset; cabin]) initialState))
           [sunset; cabin] eq_refl eq_refl Hne).
Defined.
